(** * Agentic ATS System: the client-side orchestration layer

    A shallow embedding of the React component [App] in its two variants,

      - [src/frontend/src/App.jsx]  (module [App]), and
      - [src/unnamed/part_000]      (module [Part000], the variant that
        transmits [required_experience]),

    together with the properties of file collection, submission,
    visibility toggling and sorting that the specification states.

    React state is a record; every handler is a function on that record.
    The asynchronous handler [handleAnalyze] is split at its single
    [await]: the synchronous prefix returns the new state and the request
    it issued (if any), and a continuation runs when the promise settles:
    one for a 2xx answer that carries an array, one for a 2xx answer that
    carries anything else (the loop over the body throws after the body
    was stored), one for a rejection. *)

From stdpp Require Import base strings pretty gmap list.
From Stdlib Require Import ZArith Lia Ascii Sorted.

Local Open Scope Z_scope.

(** * JavaScript strings, arrays and truthiness *)

Module JS.

(** A JavaScript string is a sequence of UTF-16 code units. *)
Definition js_string := list N.

(** String literals of the source (all of them ASCII). *)
Definition js (s : string) : js_string :=
  List.map N_of_ascii (String.list_ascii_of_string s).

(** [a === b] on strings. *)
Definition strict_eq (a b : js_string) : bool := bool_decide (a = b).

(** The empty string is the only falsy string. *)
Definition truthy (s : js_string) : bool :=
  match s with [] => false | _ => true end.

(** ECMAScript [WhiteSpace] and [LineTerminator] code points, the ones
    [String.prototype.trim] strips. *)
Definition isWhiteSpace (c : N) : bool :=
  ((c =? 0x9) || (c =? 0xA) || (c =? 0xB) || (c =? 0xC) || (c =? 0xD)
   || (c =? 0x20) || (c =? 0xA0) || (c =? 0x1680)
   || ((0x2000 <=? c) && (c <=? 0x200A))
   || (c =? 0x2028) || (c =? 0x2029) || (c =? 0x202F) || (c =? 0x205F)
   || (c =? 0x3000) || (c =? 0xFEFF))%N.

Fixpoint trimStart (s : js_string) : js_string :=
  match s with
  | [] => []
  | c :: s' => if isWhiteSpace c then trimStart s' else s
  end.

Definition trimEnd (s : js_string) : js_string :=
  rev (trimStart (rev s)).

(** [s.trim()] *)
Definition trim (s : js_string) : js_string := trimEnd (trimStart s).

Section Arrays.
Context {A : Type}.

(** [l.some(p)] and [l.filter(p)] *)
Definition some (p : A → bool) (l : list A) : bool := existsb p l.
Definition filter (p : A → bool) (l : list A) : list A := List.filter p l.

(** [l.forEach((x, index) => body)] where the body updates an object
    [acc] of the enclosing scope. *)
Fixpoint forEach_from {S : Type} (body : S → A → nat → S)
    (index : nat) (l : list A) (acc : S) : S :=
  match l with
  | [] => acc
  | x :: l' => forEach_from body (Datatypes.S index) l' (body acc x index)
  end.
Definition forEach {S : Type} (body : S → A → nat → S) (l : list A)
    (acc : S) : S :=
  forEach_from body 0 l acc.

(** [Array.prototype.sort(cmp)].  ECMAScript (2019 and later) requires the
    sort to be stable: [cmp a b < 0] puts [a] first, [cmp a b > 0] puts
    [b] first, and elements that compare equal keep their order.  For a
    consistent comparator that fixes the result, which is computed here by
    insertion from the right. *)
Fixpoint sort_insert (cmp : A → A → Z) (x : A) (l : list A) : list A :=
  match l with
  | [] => [x]
  | y :: l' => if cmp x y <=? 0 then x :: l else y :: sort_insert cmp x l'
  end.
Definition sort (cmp : A → A → Z) (l : list A) : list A :=
  foldr (sort_insert cmp) [] l.
End Arrays.

(** A JavaScript value that is a number or a string, and its conversion to
    a string (as [FormData.append] and template literals perform it). *)
Inductive js_value :=
  | JNumber (n : Z)
  | JString (s : js_string).

Definition ToString (v : js_value) : js_string :=
  match v with
  | JNumber n => js (pretty n)
  | JString s => s
  end.

(** [`${index}`] for an array index. *)
Definition index_string (index : nat) : js_string := js (pretty index).

(** ** [encodeURIComponent]

    ECMAScript's [Encode] with the unreserved set of [encodeURIComponent]
    (letters, digits and [- _ . ! ~ * ' ( )]): an unreserved code unit is
    copied; any other code point is written as the percent-escaped octets
    of its UTF-8 form; a surrogate that is not part of a pair raises
    [URIError], here [None]. *)
Definition isUnreserved (c : N) : bool :=
  (((0x41 <=? c) && (c <=? 0x5A)) || ((0x61 <=? c) && (c <=? 0x7A))
   || ((0x30 <=? c) && (c <=? 0x39))
   || (c =? 0x2D) || (c =? 0x5F) || (c =? 0x2E) || (c =? 0x21)
   || (c =? 0x7E) || (c =? 0x2A) || (c =? 0x27) || (c =? 0x28)
   || (c =? 0x29))%N.

Definition isLeadSurrogate (c : N) : bool := ((0xD800 <=? c) && (c <=? 0xDBFF))%N.
Definition isTrailSurrogate (c : N) : bool := ((0xDC00 <=? c) && (c <=? 0xDFFF))%N.

(** The upper-case hexadecimal digit of a value below 16. *)
Definition hex_digit (n : N) : N := (if n <? 10 then 0x30 + n else 0x37 + n)%N.

(** [%XX] for one octet. *)
Definition percent (octet : N) : js_string :=
  [0x25; hex_digit (octet / 16); hex_digit (octet mod 16)]%N.

(** The octets of the UTF-8 form of a code point. *)
Definition utf8 (V : N) : list N :=
  (if V <? 0x80 then [V]
   else if V <? 0x800 then [0xC0 + V / 0x40; 0x80 + V mod 0x40]
   else if V <? 0x10000 then
     [0xE0 + V / 0x1000; 0x80 + (V / 0x40) mod 0x40; 0x80 + V mod 0x40]
   else
     [0xF0 + V / 0x40000; 0x80 + (V / 0x1000) mod 0x40;
      0x80 + (V / 0x40) mod 0x40; 0x80 + V mod 0x40])%N.

Definition escape (V : N) : js_string := concat (List.map percent (utf8 V)).

(** The code point of a surrogate pair. *)
Definition pair_code_point (lead trail : N) : N :=
  ((lead - 0xD800) * 0x400 + (trail - 0xDC00) + 0x10000)%N.

Fixpoint encodeURIComponent (s : js_string) : option js_string :=
  match s with
  | [] => Some []
  | c :: s' =>
      if isUnreserved c then (c ::.) <$> encodeURIComponent s'
      else if isTrailSurrogate c then None
      else if negb (isLeadSurrogate c)
      then (escape c ++.) <$> encodeURIComponent s'
      else
        match s' with
        | [] => None
        | d :: s'' =>
            if isTrailSurrogate d
            then (escape (pair_code_point c d) ++.) <$> encodeURIComponent s''
            else None
        end
  end.

End JS.

Import JS.
Infix "===" := strict_eq (at level 70, no associativity).

(** * Data shared by both variants *)

(** A [File] of a [FileList]: what the component reads of it. *)
Record File := mkFile {
  name : js_string;
  size : N;
  type : js_string;
}.

(** An entry of the array the analysis service returns. *)
Record PainPoints := mkPainPoints {
  critical : list js_string;
  major : list js_string;
  minor : list js_string;
}.

Record CandidateResult := mkResult {
  candidate_name : js_string;
  score : Z;
  pain_points : PainPoints;
  summary : js_string;
  status : js_string;
  resume_name : js_string;
}.

(** The entries of a [FormData]. *)
Inductive form_value :=
  | FormFile (f : File)
  | FormText (s : js_string).

Definition FormData := list (js_string * form_value).

Definition form_keys (fd : FormData) : list js_string := List.map fst fd.

(** [formData.get(key)]: the first value stored under [key]. *)
Fixpoint form_get (key : js_string) (fd : FormData) : option form_value :=
  match fd with
  | [] => None
  | (k, v) :: fd' => if k === key then Some v else form_get key fd'
  end.

(** A JSON value that is not an array, as far as the component reads it.
    On none of these is [forEach] a function, so the loop over the
    response throws; rendering reads [length]: reading it of [null] throws,
    a boolean or a number has none, a string has its own, and an object
    has one if it has such a member ([length_positive]: whether that member
    compares greater than 0). *)
Inductive non_array :=
  | JsonNull
  | JsonBoolean (b : bool)
  | JsonNumber (n : Z)
  | JsonString (s : js_string)
  | JsonObject (length_positive : bool).

(** What the [results] cell holds: an array of results, or a response body
    that is not an array (stored by [setResults(response.data)] before the
    loop over it throws). *)
Inductive results_value :=
  | Rows (rows : list CandidateResult)
  | Body (body : non_array).

(** The rows of the results table: the elements of an array; a cell that
    holds no array has none (under [results.length > 0] rendering it throws,
    and otherwise the section shows no table). *)
Definition rows (v : results_value) : list CandidateResult :=
  match v with
  | Rows l => l
  | Body _ => []
  end.

(** What the promise of [axios.post] settles to: a 2xx answer whose body is
    the array of results that the service documents, a 2xx answer with any
    other body, or a rejection (network failure, non-2xx status). *)
Inductive response :=
  | Resolved (data : list CandidateResult)
  | Malformed (body : non_array)
  | Rejected.

Definition pdf : js_string := js "application/pdf".
Definition docx : js_string :=
  js "application/vnd.openxmlformats-officedocument.wordprocessingml.document".

(** The messages shown for the three error outcomes. *)
Definition NoResumes : js_string := js "Please upload at least one resume file.".
Definition NoJobDescription : js_string := js "Please provide a job description.".
Definition AnalysisFailed : js_string :=
  js "An error occurred during analysis. Please try again.".

(** The keys of [visibleContent]: [`pain-points-${index}`] and
    [`summary-${index}`]. *)
Definition pain_points_key (index : nat) : js_string :=
  js "pain-points-" ++ index_string index.
Definition summary_key (index : nat) : js_string :=
  js "summary-" ++ index_string index.

(** [obj[key]] read as a condition: an absent key is [undefined], falsy. *)
Definition flag (obj : gmap js_string bool) (key : js_string) : bool :=
  default false (obj !! key).

(** * The component of [src/frontend/src/App.jsx] *)

Module App.

(** The [useState] cells of the component. *)
Record State := mkState {
  resumes : list File;
  jobDescription : js_string;
  results : results_value;
  analyzing : bool;
  error : option js_string;
  visibleContent : gmap js_string bool;
  analyzeClicked : bool;
  isDragOver : bool;
}.

Definition initial : State :=
  mkState [] [] (Rows []) false None ∅ false false.

(** The setters.  [setResumes], [setResults] and [setVisibleContent] take
    an updater function of the previous value, as the source calls them
    with one; where the source passes a plain value, the updater is the
    constant function. *)
Definition setResumes (f : list File → list File) (s : State) : State :=
  mkState (f (resumes s)) (jobDescription s) (results s) (analyzing s)
    (error s) (visibleContent s) (analyzeClicked s) (isDragOver s).
Definition setJobDescription (v : js_string) (s : State) : State :=
  mkState (resumes s) v (results s) (analyzing s)
    (error s) (visibleContent s) (analyzeClicked s) (isDragOver s).
Definition setResults (f : results_value → results_value)
    (s : State) : State :=
  mkState (resumes s) (jobDescription s) (f (results s)) (analyzing s)
    (error s) (visibleContent s) (analyzeClicked s) (isDragOver s).
Definition setAnalyzing (v : bool) (s : State) : State :=
  mkState (resumes s) (jobDescription s) (results s) v
    (error s) (visibleContent s) (analyzeClicked s) (isDragOver s).
Definition setError (v : option js_string) (s : State) : State :=
  mkState (resumes s) (jobDescription s) (results s) (analyzing s)
    v (visibleContent s) (analyzeClicked s) (isDragOver s).
Definition setVisibleContent
    (f : gmap js_string bool → gmap js_string bool) (s : State) : State :=
  mkState (resumes s) (jobDescription s) (results s) (analyzing s)
    (error s) (f (visibleContent s)) (analyzeClicked s) (isDragOver s).
Definition setAnalyzeClicked (v : bool) (s : State) : State :=
  mkState (resumes s) (jobDescription s) (results s) (analyzing s)
    (error s) (visibleContent s) v (isDragOver s).
Definition setIsDragOver (v : bool) (s : State) : State :=
  mkState (resumes s) (jobDescription s) (results s) (analyzing s)
    (error s) (visibleContent s) (analyzeClicked s) v.

(** [handleFileChange]: [files] is [e.target.files]. *)
Definition handleFileChange (files : list File) (s : State) : State :=
  let newFiles := files in
  let uniqueNewFiles :=
    JS.filter
      (λ newFile,
         negb (some (λ existingFile, name existingFile === name newFile)
                 (resumes s)))
      newFiles in
  setResumes (λ prev, prev ++ uniqueNewFiles) s.

Definition handleDragOver (s : State) : State := setIsDragOver true s.
Definition handleDragLeave (s : State) : State := setIsDragOver false s.

(** [handleDrop]: [files] is [e.dataTransfer.files]. *)
Definition handleDrop (files : list File) (s : State) : State :=
  let s := setIsDragOver false s in
  let droppedFiles := files in
  let validFiles :=
    JS.filter (λ file, (type file === pdf) || (type file === docx))
      droppedFiles in
  let uniqueValidFiles :=
    JS.filter
      (λ newFile,
         negb (some (λ existingFile, name existingFile === name newFile)
                 (resumes s)))
      validFiles in
  setResumes (λ prev, prev ++ uniqueValidFiles) s.

Definition removeFile (fileName : js_string) (s : State) : State :=
  setResumes (JS.filter (λ file, negb (name file === fileName))) s.

(** [handleAnalyze] up to its [await]: the state it leaves and the form
    data it posted to [/analyze], [None] when it returned without a
    request. *)
Definition handleAnalyze (s : State) : State * option FormData :=
  let s1 := setAnalyzeClicked true s in
  if (length (resumes s) =? 0)%nat || negb (truthy (trim (jobDescription s)))
  then
    (if (length (resumes s) =? 0)%nat then setError (Some NoResumes) s1
     else if negb (truthy (trim (jobDescription s)))
          then setError (Some NoJobDescription) s1
          else s1,
     None)
  else
    let s2 := setError None s1 in
    let s3 := setAnalyzing true s2 in
    (* Clear previous results and visibility state *)
    let s4 := setResults (λ _, Rows []) s3 in
    let s5 := setVisibleContent (λ _, ∅) s4 in
    let formData : FormData :=
      forEach (λ fd file _, fd ++ [(js "resumes", FormFile file)])
        (resumes s) [] in
    let formData := formData ++ [(js "job_description",
                                  FormText (jobDescription s))] in
    (s5, Some formData).

(** [handleAnalyze] after the [await], when the request succeeded with the
    array [data]. *)
Definition handleAnalyze_resolved (data : list CandidateResult)
    (s : State) : State :=
  let results := data in
  let s := setResults (λ _, Rows results) s in
  let initialVisibility : gmap js_string bool :=
    forEach
      (λ obj _ index,
         <[summary_key index := false]>
           (<[pain_points_key index := false]> obj))
      results ∅ in
  let s := setVisibleContent (λ _, initialVisibility) s in
  setAnalyzing false s.

(** [handleAnalyze] after the [await], when the request succeeded with a
    body that is not an array: [setResults(results)] has stored the body
    when [results.forEach] throws, and the [catch] and [finally] blocks
    run. *)
Definition handleAnalyze_malformed (body : non_array) (s : State) : State :=
  let results := body in
  let s := setResults (λ _, Body results) s in
  let s := setError (Some AnalysisFailed) s in
  setAnalyzing false s.

(** [handleAnalyze] after the [await], when the request failed. *)
Definition handleAnalyze_rejected (s : State) : State :=
  let s := setError (Some AnalysisFailed) s in
  setAnalyzing false s.

Definition handleAnalyze_settled (r : response) (s : State) : State :=
  match r with
  | Resolved data => handleAnalyze_resolved data s
  | Malformed body => handleAnalyze_malformed body s
  | Rejected => handleAnalyze_rejected s
  end.

Definition toggleContent (id : js_string) (s : State) : State :=
  setVisibleContent
    (λ prev, <[id := negb (flag prev id) || false]> prev) s.

(** [sortByScore].  The Sort button is rendered below the table only, that
    is while [results] is an array with rows.  On a cell that holds no
    array, [[...prevResults]] throws before any setter is reached (of a
    string it would spread the characters): that clause is never run by
    the page, and it leaves the state as it is. *)
Definition sortByScore (s : State) : State :=
  match results s with
  | Rows prevResults =>
      (* a new array sorted by score, highest first *)
      let sortedResults := sort (λ a b, score b - score a) prevResults in
      let newVisibleContent : gmap js_string bool :=
        forEach
          (λ obj _ index,
             <[summary_key index :=
                 flag (visibleContent s) (summary_key index) || false]>
               (<[pain_points_key index :=
                    flag (visibleContent s) (pain_points_key index)
                    || false]>
                  obj))
          sortedResults ∅ in
      let s := setVisibleContent (λ _, newVisibleContent) s in
      setResults (λ _, Rows sortedResults) s
  | Body _ => s
  end.

(** Is the disclosure section of the row at [index] shown?  (The table
    renders it under [visibleContent[`pain-points-${index}`] && ...].) *)
Definition painPoints_shown (s : State) (index : nat) : bool :=
  flag (visibleContent s) (pain_points_key index).
Definition summary_shown (s : State) (index : nat) : bool :=
  flag (visibleContent s) (summary_key index).

Definition getScoreColor (score : Z) : js_string :=
  if 70 <? score then js "text-green-600 bg-green-50"
  else if 50 <=? score then js "text-yellow-600 bg-yellow-50"
  else js "text-red-600 bg-red-50".

(** The [href] of the Download link of a row,
    [`/uploads/${encodeURIComponent(result.resume_name)}`]; [None] when
    [encodeURIComponent] throws. *)
Definition download_href (result : CandidateResult) : option js_string :=
  (js "/uploads/" ++.) <$> encodeURIComponent (resume_name result).

(** What the results section renders: the table under
    [results.length > 0], and otherwise one of two messages, chosen by
    [analyzeClicked].  For a cell that holds no array, rendering throws
    when [results.length] cannot be read ([null]) or is above 0 (for then
    [results.map] is called, which is no function). *)
Inductive results_view :=
  | ResultsTable (rows : list CandidateResult)
  | EmptyState (message : js_string)
  | RenderThrows.

(** [body.length > 0], [None] when reading [length] throws. *)
Definition length_above_zero (body : non_array) : option bool :=
  match body with
  | JsonNull => None
  | JsonBoolean _ | JsonNumber _ => Some false
  | JsonString s => Some (0 <? length s)%nat
  | JsonObject length_positive => Some length_positive
  end.

Definition no_results_message : js_string :=
  js "No results to display. Please ensure valid resumes and job description are provided.".
Definition upload_prompt : js_string :=
  js "Upload resumes and click " ++ [0x22%N] ++ js "Analyze" ++ [0x22%N]
  ++ js " to see comprehensive candidate scoring and ranking".

Definition results_section (s : State) : results_view :=
  let empty_state :=
    EmptyState (if analyzeClicked s then no_results_message
                else upload_prompt) in
  match results s with
  | Rows results =>
      if (0 <? length results)%nat then ResultsTable results
      else empty_state
  | Body body =>
      match length_above_zero body with
      | Some false => empty_state
      | Some true | None => RenderThrows
      end
  end.

(** ** The page as a transition system

    The events the rendered page can deliver.  The Analyze button carries
    [disabled={analyzing}]; the View buttons exist once per row of
    [results]; the Sort button is rendered only under
    [results.length > 0]; a response arrives only for a request that is
    outstanding.  An event that cannot be delivered leaves the system as it
    is.  (A page whose rendering has thrown delivers no event at all; the
    system below lets it go on, so that it has every run of the page and
    what holds of all its runs holds of the page.) *)
Inductive event :=
  | FileChange (files : list File)
  | DragOver
  | DragLeave
  | Drop (files : list File)
  | ClickRemove (fileName : js_string)
  | ChangeJobDescription (value : js_string)
  | ClickAnalyze
  | Settle (r : response)
  | ClickViewPainPoints (index : nat)
  | ClickViewSummary (index : nat)
  | ClickSort.

(** The component state and the requests posted and not yet answered. *)
Record System := mkSystem {
  app : State;
  outstanding : list FormData;
}.

Definition start : System := mkSystem initial [].

Definition step (sys : System) (e : event) : System :=
  let s := app sys in
  match e with
  | FileChange files => mkSystem (handleFileChange files s) (outstanding sys)
  | DragOver => mkSystem (handleDragOver s) (outstanding sys)
  | DragLeave => mkSystem (handleDragLeave s) (outstanding sys)
  | Drop files => mkSystem (handleDrop files s) (outstanding sys)
  | ClickRemove fileName => mkSystem (removeFile fileName s) (outstanding sys)
  | ChangeJobDescription value =>
      mkSystem (setJobDescription value s) (outstanding sys)
  | ClickAnalyze =>
      if analyzing s then sys
      else
        match handleAnalyze s with
        | (s', Some formData) => mkSystem s' (outstanding sys ++ [formData])
        | (s', None) => mkSystem s' (outstanding sys)
        end
  | Settle r =>
      match outstanding sys with
      | [] => sys
      | _ :: rest => mkSystem (handleAnalyze_settled r s) rest
      end
  | ClickViewPainPoints index =>
      if (index <? length (rows (results s)))%nat
      then mkSystem (toggleContent (pain_points_key index) s) (outstanding sys)
      else sys
  | ClickViewSummary index =>
      if (index <? length (rows (results s)))%nat
      then mkSystem (toggleContent (summary_key index) s) (outstanding sys)
      else sys
  | ClickSort =>
      if (0 <? length (rows (results s)))%nat
      then mkSystem (sortByScore s) (outstanding sys)
      else sys
  end.

Definition run (evs : list event) : System := foldl step start evs.

End App.

(** * The component of [src/unnamed/part_000]

    The variant with the required-experience selector.  It has no
    [removeFile] and no [sortByScore], its file input replaces the
    collection, and [handleAnalyze] keeps the previous results while the
    request runs. *)

Module Part000.

Record State := mkState {
  resumes : list File;
  jobDescription : js_string;
  requiredExperience : js_value;
  results : results_value;
  analyzing : bool;
  error : option js_string;
  visibleContent : gmap js_string bool;
  analyzeClicked : bool;
  isDragOver : bool;
}.

Definition initial : State :=
  mkState [] [] (JNumber 0) (Rows []) false None ∅ false false.

Definition setResumes (f : list File → list File) (s : State) : State :=
  mkState (f (resumes s)) (jobDescription s) (requiredExperience s)
    (results s) (analyzing s) (error s) (visibleContent s)
    (analyzeClicked s) (isDragOver s).
Definition setJobDescription (v : js_string) (s : State) : State :=
  mkState (resumes s) v (requiredExperience s)
    (results s) (analyzing s) (error s) (visibleContent s)
    (analyzeClicked s) (isDragOver s).
Definition setRequiredExperience (v : js_value) (s : State) : State :=
  mkState (resumes s) (jobDescription s) v
    (results s) (analyzing s) (error s) (visibleContent s)
    (analyzeClicked s) (isDragOver s).
Definition setResults (v : results_value) (s : State) : State :=
  mkState (resumes s) (jobDescription s) (requiredExperience s)
    v (analyzing s) (error s) (visibleContent s)
    (analyzeClicked s) (isDragOver s).
Definition setAnalyzing (v : bool) (s : State) : State :=
  mkState (resumes s) (jobDescription s) (requiredExperience s)
    (results s) v (error s) (visibleContent s)
    (analyzeClicked s) (isDragOver s).
Definition setError (v : option js_string) (s : State) : State :=
  mkState (resumes s) (jobDescription s) (requiredExperience s)
    (results s) (analyzing s) v (visibleContent s)
    (analyzeClicked s) (isDragOver s).
Definition setVisibleContent
    (f : gmap js_string bool → gmap js_string bool) (s : State) : State :=
  mkState (resumes s) (jobDescription s) (requiredExperience s)
    (results s) (analyzing s) (error s) (f (visibleContent s))
    (analyzeClicked s) (isDragOver s).
Definition setAnalyzeClicked (v : bool) (s : State) : State :=
  mkState (resumes s) (jobDescription s) (requiredExperience s)
    (results s) (analyzing s) (error s) (visibleContent s)
    v (isDragOver s).
Definition setIsDragOver (v : bool) (s : State) : State :=
  mkState (resumes s) (jobDescription s) (requiredExperience s)
    (results s) (analyzing s) (error s) (visibleContent s)
    (analyzeClicked s) v.

Definition handleFileChange (files : list File) (s : State) : State :=
  setResumes (λ _, files) s.

Definition handleDragOver (s : State) : State := setIsDragOver true s.
Definition handleDragLeave (s : State) : State := setIsDragOver false s.

Definition handleDrop (files : list File) (s : State) : State :=
  let s := setIsDragOver false s in
  let droppedFiles := files in
  let validFiles :=
    JS.filter (λ file, (type file === pdf) || (type file === docx))
      droppedFiles in
  setResumes (λ prev, prev ++ validFiles) s.

Definition handleAnalyze (s : State) : State * option FormData :=
  let s1 := setAnalyzeClicked true s in
  if (length (resumes s) =? 0)%nat || negb (truthy (trim (jobDescription s)))
  then
    (if (length (resumes s) =? 0)%nat then setError (Some NoResumes) s1
     else if negb (truthy (trim (jobDescription s)))
          then setError (Some NoJobDescription) s1
          else s1,
     None)
  else
    let s2 := setError None s1 in
    let s3 := setAnalyzing true s2 in
    let formData : FormData :=
      forEach (λ fd file _, fd ++ [(js "resumes", FormFile file)])
        (resumes s) [] in
    let formData := formData ++ [(js "job_description",
                                  FormText (jobDescription s))] in
    let formData := formData ++ [(js "required_experience",
                                  FormText (ToString (requiredExperience s)))] in
    (s3, Some formData).

Definition handleAnalyze_resolved (data : list CandidateResult)
    (s : State) : State :=
  let results := data in
  let s := setResults (Rows results) s in
  let initialVisibility : gmap js_string bool :=
    forEach
      (λ obj _ index,
         <[summary_key index := false]>
           (<[pain_points_key index := false]> obj))
      results ∅ in
  let s := setVisibleContent (λ _, initialVisibility) s in
  setAnalyzing false s.

(** A 2xx body that is not an array: stored by [setResults(results)], then
    [results.forEach] throws and the [catch] and [finally] blocks run. *)
Definition handleAnalyze_malformed (body : non_array) (s : State) : State :=
  let results := body in
  let s := setResults (Body results) s in
  let s := setError (Some AnalysisFailed) s in
  setAnalyzing false s.

Definition handleAnalyze_rejected (s : State) : State :=
  let s := setError (Some AnalysisFailed) s in
  setAnalyzing false s.

Definition handleAnalyze_settled (r : response) (s : State) : State :=
  match r with
  | Resolved data => handleAnalyze_resolved data s
  | Malformed body => handleAnalyze_malformed body s
  | Rejected => handleAnalyze_rejected s
  end.

Definition toggleContent (id : js_string) (s : State) : State :=
  setVisibleContent (λ prev, <[id := negb (flag prev id)]> prev) s.

Definition getScoreColor (score : Z) : js_string :=
  if 80 <=? score then js "text-green-600 bg-green-50"
  else if 60 <=? score then js "text-yellow-600 bg-yellow-50"
  else js "text-red-600 bg-red-50".

(** The [<select>] offers [Array.from({ length: 21 }, (_, i) => ...)], one
    [<option value={i}>] for each [i] below 21; choosing one stores
    [e.target.value], the option's value as a string. *)
Definition option_count : nat := 21.
Definition option_value (i : nat) : js_value := JString (index_string i).

Inductive event :=
  | FileChange (files : list File)
  | DragOver
  | DragLeave
  | Drop (files : list File)
  | ChangeRequiredExperience (i : nat)
  | ChangeJobDescription (value : js_string)
  | ClickAnalyze
  | Settle (r : response)
  | ClickViewPainPoints (index : nat)
  | ClickViewSummary (index : nat).

Record System := mkSystem {
  app : State;
  outstanding : list FormData;
}.

Definition start : System := mkSystem initial [].

Definition step (sys : System) (e : event) : System :=
  let s := app sys in
  match e with
  | FileChange files => mkSystem (handleFileChange files s) (outstanding sys)
  | DragOver => mkSystem (handleDragOver s) (outstanding sys)
  | DragLeave => mkSystem (handleDragLeave s) (outstanding sys)
  | Drop files => mkSystem (handleDrop files s) (outstanding sys)
  | ChangeRequiredExperience i =>
      if (i <? option_count)%nat
      then mkSystem (setRequiredExperience (option_value i) s)
             (outstanding sys)
      else sys
  | ChangeJobDescription value =>
      mkSystem (setJobDescription value s) (outstanding sys)
  | ClickAnalyze =>
      if analyzing s then sys
      else
        match handleAnalyze s with
        | (s', Some formData) => mkSystem s' (outstanding sys ++ [formData])
        | (s', None) => mkSystem s' (outstanding sys)
        end
  | Settle r =>
      match outstanding sys with
      | [] => sys
      | _ :: rest => mkSystem (handleAnalyze_settled r s) rest
      end
  | ClickViewPainPoints index =>
      if (index <? length (rows (results s)))%nat
      then mkSystem (toggleContent (pain_points_key index) s) (outstanding sys)
      else sys
  | ClickViewSummary index =>
      if (index <? length (rows (results s)))%nat
      then mkSystem (toggleContent (summary_key index) s) (outstanding sys)
      else sys
  end.

Definition run (evs : list event) : System := foldl step start evs.

End Part000.

(** * Vocabulary of the properties *)

Section SortVocabulary.
Context {A : Type} (key : A → Z).

(** The comparator [(a, b) => key(b) - key(a)]: highest key first. *)
Definition descending (a b : A) : Z := key b - key a.

(** [a] may stand before [b] in a list sorted highest key first. *)
Definition key_ge (a b : A) : Prop := key b ≤ key a.

Definition has_key (k : Z) (a : A) : bool := key a =? k.
End SortVocabulary.

(** The body of the loop that [handleAnalyze] and [sortByScore] run over the
    rows: both keys of the row [index] are written, with the value [g]
    gives them. *)
Definition write_row {A : Type} (g : js_string → bool)
    (obj : gmap js_string bool) (_ : A) (index : nat) : gmap js_string bool :=
  <[summary_key index := g (summary_key index)]>
    (<[pain_points_key index := g (pain_points_key index)]> obj).

(** The file names of a collection. *)
Definition names (files : list File) : list js_string := List.map name files.

(** A MIME type the drop zone accepts. *)
Definition accepted_type (t : js_string) : Prop := t = pdf ∨ t = docx.

(** In a system state, either nothing is outstanding and the component is
    idle, or exactly one request is outstanding, the component is
    analyzing, and it shows no results. *)
Definition App_lifecycle (sys : App.System) : Prop :=
  (App.outstanding sys = [] ∧ App.analyzing (App.app sys) = false)
  ∨ (∃ formData, App.outstanding sys = [formData]
       ∧ App.analyzing (App.app sys) = true
       ∧ App.results (App.app sys) = Rows []
       ∧ App.visibleContent (App.app sys) = ∅).

Definition Part000_lifecycle (sys : Part000.System) : Prop :=
  (Part000.outstanding sys = [] ∧ Part000.analyzing (Part000.app sys) = false)
  ∨ (∃ formData, Part000.outstanding sys = [formData]
       ∧ Part000.analyzing (Part000.app sys) = true).

(** The value the selector of [part_000] holds is the decimal string of a
    number of years from 0 to 20. *)
Definition years_in_range (v : js_value) : Prop :=
  ∃ n : Z, 0 ≤ n ≤ 20 ∧ ToString v = js (pretty n).

(** The form data carries a [required_experience] field that is the decimal
    string of a number of years from 0 to 20. *)
Definition sends_years_in_range (formData : FormData) : Prop :=
  ∃ n : Z, 0 ≤ n ≤ 20
    ∧ form_get (js "required_experience") formData
      = Some (FormText (js (pretty n))).

(** The entries [handleAnalyze] appends for the collected files. *)
Definition resume_entries (files : list File) : FormData :=
  List.map (λ file, (js "resumes", FormFile file)) files.

(** The files an event offers to the collection. *)
Definition batch_of (e : App.event) : list File :=
  match e with
  | App.FileChange files | App.Drop files => files
  | _ => []
  end.

(** No event offers two files of the same name at once. *)
Definition distinct_batches (evs : list App.event) : Prop :=
  Forall (λ e, NoDup (names (batch_of e))) evs.

(** Every row of the results has both of its keys in [visibleContent]. *)
Definition rows_have_keys (s : App.State) : Prop :=
  ∀ index, (index < length (rows (App.results s)))%nat →
    is_Some (App.visibleContent s !! pain_points_key index)
    ∧ is_Some (App.visibleContent s !! summary_key index).

(** [formData.getAll(key)] *)
Definition form_getAll (key : js_string) (fd : FormData) : list form_value :=
  List.map snd (List.filter (λ entry, fst entry === key) fd).

(** A code unit that [encodeURIComponent] can produce: an unreserved one or
    the percent sign. *)
Definition uri_safe (c : N) : bool := isUnreserved c || (c =? 0x25)%N.

(** A value that fits a UTF-16 code unit. *)
Definition is_code_unit (c : N) : Prop := (c < 0x10000)%N.

(** The three badges of [getScoreColor]. *)
Definition green : js_string := js "text-green-600 bg-green-50".
Definition yellow : js_string := js "text-yellow-600 bg-yellow-50".
Definition red : js_string := js "text-red-600 bg-red-50".

(** While a request is outstanding the component has recorded the click and
    shows no error; and as long as no click was recorded there is no error,
    no result and no request. *)
Definition App_banner (sys : App.System) : Prop :=
  (App.outstanding sys ≠ [] →
     App.analyzeClicked (App.app sys) = true ∧ App.error (App.app sys) = None)
  ∧ (App.analyzeClicked (App.app sys) = false →
     App.error (App.app sys) = None ∧ App.results (App.app sys) = Rows []
     ∧ App.outstanding sys = []).

(** ** Sample data *)

Definition no_pain_points : PainPoints := mkPainPoints [] [] [].

Definition candidateA : CandidateResult :=
  mkResult (js "A") 65 no_pain_points (js "Solid.") (js "Under Consideration")
    (js "resumeA.pdf").
Definition candidateB : CandidateResult :=
  mkResult (js "B") 90 no_pain_points (js "Strong.") (js "Shortlisted")
    (js "resumeB.pdf").

Definition resumeA : File := mkFile (js "resumeA.pdf") 10240 pdf.
Definition resumeB : File := mkFile (js "resumeB.pdf") 20480 pdf.
(** A second file called [resumeA.pdf], from another folder. *)
Definition resumeA' : File := mkFile (js "resumeA.pdf") 4096 pdf.
Definition notes : File := mkFile (js "notes.txt") 12 (js "text/plain").

(** Two resumes analysed, candidate A's pain points opened. *)
Definition opened_A : list App.event :=
  [ App.Drop [resumeA; resumeB];
    App.ChangeJobDescription (js "Rust engineer");
    App.ClickAnalyze;
    App.Settle (Resolved [candidateA; candidateB]);
    App.ClickViewPainPoints 0 ].

(** One resume collected and a description of a space, a tab and a
    no-break space. *)
Definition blank_description : list App.event :=
  [ App.Drop [resumeA]; App.ChangeJobDescription [0x20; 0x9; 0xA0]%N ].
Definition blank_description000 : list Part000.event :=
  [ Part000.Drop [resumeA]; Part000.ChangeJobDescription [0x20; 0x9; 0xA0]%N ].

(** One resume and a description, ready to submit; then submitted and not
    yet answered. *)
Definition ready : list App.event :=
  [ App.Drop [resumeA]; App.ChangeJobDescription (js "Rust engineer") ].
Definition submitted : list App.event := ready ++ [App.ClickAnalyze].

(** A finished analysis; then a second submission, and its failure. *)
Definition analysed : list App.event :=
  [ App.Drop [resumeA; resumeB];
    App.ChangeJobDescription (js "Rust engineer");
    App.ClickAnalyze;
    App.Settle (Resolved [candidateA; candidateB]) ].
Definition resubmitted : list App.event := analysed ++ [App.ClickAnalyze].
Definition resubmitted_failed : list App.event :=
  resubmitted ++ [App.Settle Rejected].

(** A page of text, as a gateway answers with, under a 200 status. *)
Definition gateway_page : non_array :=
  JsonString (js "<html>Bad Gateway</html>").
Definition resubmitted_malformed : list App.event :=
  resubmitted ++ [App.Settle (Malformed gateway_page)].


(** The same in [part_000], with seven years of experience selected. *)
Definition ready000 : list Part000.event :=
  [ Part000.Drop [resumeA];
    Part000.ChangeRequiredExperience 7;
    Part000.ChangeJobDescription (js "Rust engineer") ].
Definition analysed000 : list Part000.event :=
  ready000 ++ [ Part000.ClickAnalyze;
                Part000.Settle (Resolved [candidateA; candidateB]) ].
Definition resubmitted000 : list Part000.event :=
  analysed000 ++ [Part000.ClickAnalyze].
Definition resubmitted000_malformed : list Part000.event :=
  resubmitted000 ++ [Part000.Settle (Malformed gateway_page)].

(** * Facts about strings *)

Lemma trimStart_nil s : trimStart s = [] ↔ forallb isWhiteSpace s = true.
Proof.
  induction s as [|c s IH]; simpl; [done|].
  destruct (isWhiteSpace c); simpl; [done|]. split; discriminate.
Qed.

Lemma trimStart_head c s' s : trimStart s = c :: s' → isWhiteSpace c = false.
Proof.
  induction s as [|d s IH]; simpl; [done|].
  destruct (isWhiteSpace d) eqn:E; [done|]. by intros [= <- _].
Qed.

Lemma forallb_rev {A} (p : A → bool) l : forallb p (rev l) = forallb p l.
Proof.
  induction l as [|x l IH]; simpl; [done|].
  rewrite forallb_app, IH. simpl. rewrite andb_true_r. apply andb_comm.
Qed.

(** [!s.trim()] holds exactly of the strings made of white space only (the
    empty string among them). *)
Lemma trim_falsy s : truthy (trim s) = false ↔ forallb isWhiteSpace s = true.
Proof.
  unfold trim, trimEnd. split.
  - intros H. destruct (rev _) eqn:E in H; [|done].
    apply (f_equal (@rev _)) in E. rewrite rev_involutive in E. simpl in E.
    apply trimStart_nil in E. rewrite forallb_rev in E.
    destruct (trimStart s) as [|c s'] eqn:Es; [by apply trimStart_nil|].
    apply trimStart_head in Es. simpl in E. by rewrite Es in E.
  - intros H. apply trimStart_nil in H. by rewrite H.
Qed.

Lemma js_inj a b : js a = js b → a = b.
Proof.
  unfold js. intros H.
  rewrite <- (String.string_of_list_ascii_of_string a),
          <- (String.string_of_list_ascii_of_string b).
  f_equal. revert H.
  generalize (String.list_ascii_of_string a) (String.list_ascii_of_string b).
  induction l as [|x l IH]; intros [|y l']; simpl; try done.
  intros [= H1 H2]. f_equal; [|by apply IH].
  rewrite <- (ascii_N_embedding x), <- (ascii_N_embedding y). by rewrite H1.
Qed.

Lemma pain_points_key_inj i j : pain_points_key i = pain_points_key j → i = j.
Proof.
  unfold pain_points_key, index_string.
  intros H%app_inv_head%js_inj. by apply (inj pretty).
Qed.

Lemma summary_key_inj i j : summary_key i = summary_key j → i = j.
Proof.
  unfold summary_key, index_string.
  intros H%app_inv_head%js_inj. by apply (inj pretty).
Qed.

Lemma pain_points_summary_key i j : pain_points_key i ≠ summary_key j.
Proof.
  unfold pain_points_key, summary_key. intros H.
  apply (f_equal head) in H. simpl in H. discriminate.
Qed.

Lemma strict_eq_true a b : (a === b) = true ↔ a = b.
Proof. unfold strict_eq. apply bool_decide_eq_true. Qed.

Lemma length_zero {A} (l : list A) : (length l =? 0)%nat = true ↔ l = [].
Proof. destruct l; simpl; split; done. Qed.

(** * Facts about [Array.prototype.sort] with a descending comparator *)

Section SortByKey.
Context {A : Type} (key : A → Z).
Local Abbreviation cmp := (descending key).
Local Abbreviation ge := (key_ge key).

Lemma Forall_sort_insert (P : A → Prop) x l :
  P x → Forall P l → Forall P (sort_insert cmp x l).
Proof.
  intros Hx Hl. induction Hl as [|y l Hy Hl IH]; simpl.
  - by constructor.
  - destruct (cmp x y <=? 0); repeat constructor; done.
Qed.

Lemma sort_insert_length x l :
  length (sort_insert cmp x l) = S (length l).
Proof.
  induction l as [|y l IH]; simpl; [done|].
  destruct (cmp x y <=? 0); simpl; by rewrite ?IH.
Qed.

Lemma sort_length l : length (sort cmp l) = length l.
Proof.
  induction l as [|x l IH]; simpl; [done|].
  by rewrite sort_insert_length, <- IH.
Qed.

Lemma sort_insert_sorted x l :
  StronglySorted ge l → StronglySorted ge (sort_insert cmp x l).
Proof.
  induction 1 as [|y l Hl IH Hy]; simpl.
  - repeat constructor.
  - destruct (cmp x y <=? 0) eqn:E.
    + apply Z.leb_le in E. constructor; [by constructor|].
      constructor; [unfold key_ge, descending in *; lia|].
      eapply Forall_impl; [exact Hy|]. unfold key_ge, descending in *.
      intros z Hz; simpl in *. lia.
    + apply Z.leb_gt in E. constructor; [done|].
      apply Forall_sort_insert; [|done]. unfold key_ge, descending in *. lia.
Qed.

Lemma sort_sorted l : StronglySorted ge (sort cmp l).
Proof.
  induction l as [|x l IH]; simpl; [constructor|]. by apply sort_insert_sorted.
Qed.

(** Insertion moves [x] only past elements of strictly higher key. *)
Lemma sort_insert_filter k x l :
  List.filter (has_key key k) (sort_insert cmp x l)
  = List.filter (has_key key k) (x :: l).
Proof.
  induction l as [|y l IH]; [done|].
  cbn [sort_insert]. destruct (cmp x y <=? 0) eqn:E; [done|].
  apply Z.leb_gt in E. cbn [List.filter] in *. rewrite IH.
  unfold has_key, descending in *.
  destruct (key y =? k) eqn:Ey, (key x =? k) eqn:Ex; try done. lia.
Qed.

Lemma sort_filter k l :
  List.filter (has_key key k) (sort cmp l) = List.filter (has_key key k) l.
Proof.
  induction l as [|x l IH]; [done|].
  cbn [sort foldr]. rewrite sort_insert_filter. cbn [List.filter].
  unfold sort in IH. by rewrite IH.
Qed.

Lemma sort_sorted_id l : StronglySorted ge l → sort cmp l = l.
Proof.
  induction 1 as [|x l Hl IH Hx]; [done|].
  cbn [sort foldr]. unfold sort in IH. rewrite IH.
  destruct Hx as [|y l Hy _]; [done|]. cbn [sort_insert].
  unfold key_ge, descending in *. by rewrite (proj2 (Z.leb_le _ _)) by lia.
Qed.

Lemma sort_idempotent l : sort cmp (sort cmp l) = sort cmp l.
Proof. apply sort_sorted_id, sort_sorted. Qed.

(** A list sorted highest key first is determined by its sublists of
    equal key: whatever stable algorithm an engine runs, it returns the
    list [sort] computes. *)
Lemma sorted_stable_unique l1 l2 :
  StronglySorted ge l1 → StronglySorted ge l2 →
  (∀ k, List.filter (has_key key k) l1 = List.filter (has_key key k) l2) →
  l1 = l2.
Proof.
  intros H1. revert l2. induction H1 as [|x l1 Hl1 IH Hx]; intros l2 H2 Hf.
  - destruct l2 as [|y l2]; [done|]. specialize (Hf (key y)).
    cbn in Hf. unfold has_key in Hf. by rewrite Z.eqb_refl in Hf.
  - destruct H2 as [|y l2 Hl2 Hy].
    { specialize (Hf (key x)). cbn in Hf. unfold has_key in Hf.
      by rewrite Z.eqb_refl in Hf. }
    assert (key x = key y) as Hxy.
    { assert (In x (List.filter (has_key key (key x)) (y :: l2))) as Hin1.
      { rewrite <- Hf. cbn. unfold has_key. rewrite Z.eqb_refl. by left. }
      assert (In y (List.filter (has_key key (key y)) (x :: l1))) as Hin2.
      { rewrite Hf. cbn. unfold has_key. rewrite Z.eqb_refl. by left. }
      apply filter_In in Hin1 as [Hin1 _]. apply filter_In in Hin2 as [Hin2 _].
      rewrite List.Forall_forall in Hx, Hy. unfold key_ge in *.
      destruct Hin1 as [->|Hin1]; [done|]. destruct Hin2 as [->|Hin2]; [done|].
      apply Hy in Hin1. apply Hx in Hin2. lia. }
    pose proof (Hf (key x)) as Hk. cbn in Hk. unfold has_key in Hk.
    rewrite <- Hxy, Z.eqb_refl in Hk. injection Hk as -> Hk.
    f_equal. apply IH; [done|]. intros k. specialize (Hf k). cbn in Hf.
    destruct (has_key key k y); [by injection Hf|done].
Qed.
End SortByKey.

(** * Facts about the visibility loops *)

Section Visibility.
Context {A : Type}.

Lemma forEach_from_pain_points g start (l : list A) acc i :
  forEach_from (write_row g) start l acc !! pain_points_key i
  = if decide (start ≤ i < start + length l)%nat
    then Some (g (pain_points_key i)) else acc !! pain_points_key i.
Proof.
  revert start acc. induction l as [|x l IH]; intros start acc; simpl.
  - case_decide; [lia|done].
  - rewrite IH. unfold write_row. repeat case_decide; try done; try lia.
    + assert (i = start) as -> by lia.
      rewrite lookup_insert_ne
        by (intros H'; by apply eq_sym, pain_points_summary_key in H').
      by rewrite lookup_insert_eq.
    + rewrite lookup_insert_ne
        by (intros H'; by apply eq_sym, pain_points_summary_key in H').
      rewrite lookup_insert_ne; [done|]. intros H'%pain_points_key_inj. lia.
Qed.

Lemma forEach_from_summary g start (l : list A) acc i :
  forEach_from (write_row g) start l acc !! summary_key i
  = if decide (start ≤ i < start + length l)%nat
    then Some (g (summary_key i)) else acc !! summary_key i.
Proof.
  revert start acc. induction l as [|x l IH]; intros start acc; simpl.
  - case_decide; [lia|done].
  - rewrite IH. unfold write_row. repeat case_decide; try done; try lia.
    + assert (i = start) as -> by lia. by rewrite lookup_insert_eq.
    + rewrite lookup_insert_ne by (intros H'%summary_key_inj; lia).
      rewrite lookup_insert_ne; [done|]. apply pain_points_summary_key.
Qed.
End Visibility.

(** * Validation of a submission *)

(** C6: [handleAnalyze] with no resume reports [NoResumes] whatever the
    description is (so also when the description is blank: the resume check
    comes first); with a resume and an empty or white-space-only description
    it reports [NoJobDescription]; in both cases it returns without posting
    a request.  Both variants of the component agree. *)
Theorem handleAnalyze_validation (s : App.State) (p : Part000.State) :
  (App.resumes s = [] →
     ∃ s', App.handleAnalyze s = (s', None)
           ∧ App.error s' = Some NoResumes)
  ∧ (App.resumes s ≠ [] →
     forallb isWhiteSpace (App.jobDescription s) = true →
     ∃ s', App.handleAnalyze s = (s', None)
           ∧ App.error s' = Some NoJobDescription)
  ∧ (Part000.resumes p = [] →
     ∃ p', Part000.handleAnalyze p = (p', None)
           ∧ Part000.error p' = Some NoResumes)
  ∧ (Part000.resumes p ≠ [] →
     forallb isWhiteSpace (Part000.jobDescription p) = true →
     ∃ p', Part000.handleAnalyze p = (p', None)
           ∧ Part000.error p' = Some NoJobDescription).
Proof.
  repeat split.
  - intros H. unfold App.handleAnalyze. rewrite H. simpl. eauto.
  - intros Hne Hws. apply trim_falsy in Hws. unfold App.handleAnalyze.
    rewrite Hws. destruct (App.resumes s); [done|]. simpl. eauto.
  - intros H. unfold Part000.handleAnalyze. rewrite H. simpl. eauto.
  - intros Hne Hws. apply trim_falsy in Hws. unfold Part000.handleAnalyze.
    rewrite Hws. destruct (Part000.resumes p); [done|]. simpl. eauto.
Qed.

Lemma handleAnalyze_validation_witness :
  (∃ s', App.handleAnalyze App.initial = (s', None)
         ∧ App.error s' = Some NoResumes)
  ∧ (∃ s', App.handleAnalyze (App.app (App.run blank_description)) = (s', None)
           ∧ App.error s' = Some NoJobDescription)
  ∧ (∃ p', Part000.handleAnalyze Part000.initial = (p', None)
           ∧ Part000.error p' = Some NoResumes)
  ∧ (∃ p', Part000.handleAnalyze
             (Part000.app (Part000.run blank_description000)) = (p', None)
           ∧ Part000.error p' = Some NoJobDescription).
Proof.
  pose proof (handleAnalyze_validation App.initial Part000.initial)
    as (H1 & _ & H3 & _).
  pose proof (handleAnalyze_validation
                (App.app (App.run blank_description))
                (Part000.app (Part000.run blank_description000)))
    as (_ & H2 & _ & H4).
  split; [apply H1; reflexivity|].
  split; [apply H2; [discriminate|reflexivity]|].
  split; [apply H3; reflexivity|].
  apply H4; [discriminate|reflexivity].
Defined.

(** * Sorting the results *)

(** [sortByScore] is reasoned about through the two equations below. *)
#[local] Arguments App.sortByScore : simpl never.

Lemma sortByScore_Rows s prev :
  App.results s = Rows prev →
  App.sortByScore s
  = App.mkState (App.resumes s) (App.jobDescription s)
      (Rows (sort (descending score) prev)) (App.analyzing s) (App.error s)
      (forEach_from
         (write_row (λ key, flag (App.visibleContent s) key || false))
         0 (sort (descending score) prev) ∅)
      (App.analyzeClicked s) (App.isDragOver s).
Proof. intros Hcell. unfold App.sortByScore. by rewrite Hcell. Qed.

Lemma sortByScore_Body s body :
  App.results s = Body body → App.sortByScore s = s.
Proof. intros Hcell. unfold App.sortByScore. by rewrite Hcell. Qed.

Lemma sortByScore_frame s :
  App.resumes (App.sortByScore s) = App.resumes s
  ∧ App.jobDescription (App.sortByScore s) = App.jobDescription s
  ∧ App.analyzing (App.sortByScore s) = App.analyzing s
  ∧ App.error (App.sortByScore s) = App.error s
  ∧ App.analyzeClicked (App.sortByScore s) = App.analyzeClicked s
  ∧ App.isDragOver (App.sortByScore s) = App.isDragOver s.
Proof. unfold App.sortByScore. by destruct (App.results s). Qed.

Lemma sortByScore_analyzing s :
  App.analyzing (App.sortByScore s) = App.analyzing s.
Proof. apply sortByScore_frame. Qed.

(** C8: after [sortByScore] the results are in descending order of score;
    for every score, the entries with that score are the entries that had
    it before the sort, in their previous order; and sorting a second time
    returns the same sequence. *)
Theorem sortByScore_stable_idempotent (s : App.State) :
  StronglySorted (key_ge score) (rows (App.results (App.sortByScore s)))
  ∧ (∀ k, List.filter (has_key score k)
            (rows (App.results (App.sortByScore s)))
          = List.filter (has_key score k) (rows (App.results s)))
  ∧ App.results (App.sortByScore (App.sortByScore s))
    = App.results (App.sortByScore s).
Proof.
  destruct (App.results s) as [prev|body] eqn:Hcell.
  - rewrite (sortByScore_Rows s prev Hcell).
    match goal with
    | |- context [App.sortByScore ?t] =>
        rewrite (sortByScore_Rows t (sort (descending score) prev))
          by reflexivity
    end.
    cbn [App.results rows].
    split; [apply sort_sorted|]. split; [intros k; apply sort_filter|].
    f_equal. apply (sort_idempotent score).
  - rewrite !(sortByScore_Body s body Hcell), Hcell. cbn [rows].
    split; [constructor|]. by split.
Qed.

(** * Toggling a disclosure section *)

(** C10: [toggleContent id] leaves the value stored under every key other
    than [id] as it was, in both variants, and touches no other part of the
    state. *)
Theorem toggleContent_frame (id key : js_string) :
  key ≠ id →
  (∀ s, App.visibleContent (App.toggleContent id s) !! key
        = App.visibleContent s !! key
        ∧ App.results (App.toggleContent id s) = App.results s
        ∧ App.resumes (App.toggleContent id s) = App.resumes s
        ∧ App.jobDescription (App.toggleContent id s) = App.jobDescription s)
  ∧ (∀ p, Part000.visibleContent (Part000.toggleContent id p) !! key
          = Part000.visibleContent p !! key
          ∧ Part000.results (Part000.toggleContent id p) = Part000.results p
          ∧ Part000.resumes (Part000.toggleContent id p) = Part000.resumes p
          ∧ Part000.jobDescription (Part000.toggleContent id p)
            = Part000.jobDescription p).
Proof.
  intros Hne. split; intros st; (split; [|done]); simpl;
    by rewrite lookup_insert_ne.
Qed.

Lemma toggleContent_frame_witness :
  App.visibleContent
    (App.toggleContent (pain_points_key 1) (App.app (App.run opened_A)))
    !! pain_points_key 0
  = App.visibleContent (App.app (App.run opened_A)) !! pain_points_key 0.
Proof.
  refine (proj1 (proj1 (toggleContent_frame (pain_points_key 1)
                          (pain_points_key 0) _) _)).
  intros H%pain_points_key_inj. discriminate.
Defined.

(** Toggling flips the flag it names; an absent flag becomes [true]. *)
Lemma toggleContent_flips id s :
  flag (App.visibleContent (App.toggleContent id s)) id
  = negb (flag (App.visibleContent s) id).
Proof.
  unfold flag. simpl. rewrite lookup_insert_eq. simpl. apply orb_false_r.
Qed.

(** * Visibility flags across a sort *)

Lemma sortByScore_visibleContent s prev :
  App.results s = Rows prev →
  App.visibleContent (App.sortByScore s)
  = forEach_from (write_row (λ key, flag (App.visibleContent s) key || false))
      0 (sort (descending score) prev) ∅.
Proof. intros Hcell. by rewrite (sortByScore_Rows s prev). Qed.

(** X16: what [sortByScore] does with the flags: the row at each position shows
    after the sort what the row at that position showed before it,
    whichever candidate the sort has moved there. *)
Lemma sortByScore_shown_by_position s index :
  (index < length (rows (App.results s)))%nat →
  App.painPoints_shown (App.sortByScore s) index = App.painPoints_shown s index
  ∧ App.summary_shown (App.sortByScore s) index = App.summary_shown s index.
Proof.
  intros Hlt. destruct (App.results s) as [prev|body] eqn:Hcell;
    [|by rewrite (sortByScore_Body s body)].
  cbn [rows] in Hlt.
  unfold App.painPoints_shown, App.summary_shown, flag at 1 3.
  rewrite (sortByScore_visibleContent s prev) by done.
  rewrite forEach_from_pain_points, forEach_from_summary, sort_length.
  rewrite !decide_True by lia. simpl. by rewrite !orb_false_r.
Qed.

(** C1, on the scenario of the specification: the service returned
    [A(65); B(90)] and the pain points of A (row 0) were opened.  After
    [sortByScore] the order is [B(90); A(65)], and the opened flag is the
    one of row 0, now B's; A, now in row 1, has lost it.  The flag has
    stayed with the slot and not with the candidate. *)
Theorem sortByScore_flag_stays_in_slot :
  let before := App.app (App.run opened_A) in
  let after := App.app (App.run (opened_A ++ [App.ClickSort])) in
  App.results before = Rows [candidateA; candidateB]
  ∧ App.painPoints_shown before 0 = true
  ∧ App.painPoints_shown before 1 = false
  ∧ App.results after = Rows [candidateB; candidateA]
  ∧ App.painPoints_shown after 0 = true
  ∧ App.painPoints_shown after 1 = false.
Proof. vm_compute. repeat split. Qed.

(** * The file collection *)

Lemma some_same_name (l : list File) (n : js_string) :
  some (λ existingFile, name existingFile === n) l = true ↔ n ∈ names l.
Proof.
  unfold some, names. rewrite existsb_exists, list_elem_of_In, in_map_iff.
  split; intros (f & H1 & H2).
  - apply strict_eq_true in H2. eauto.
  - exists f. split; [done|]. by apply strict_eq_true.
Qed.

Lemma names_filter_subset (p : File → bool) (l : list File) (n : js_string) :
  n ∈ names (JS.filter p l) → n ∈ names l.
Proof.
  unfold names, JS.filter. rewrite !list_elem_of_In, !in_map_iff.
  intros (f & Hf & Hin). apply filter_In in Hin as [Hin _]. eauto.
Qed.

Lemma NoDup_names_filter (p : File → bool) (l : list File) :
  NoDup (names l) → NoDup (names (JS.filter p l)).
Proof.
  induction l as [|f l IH]; [done|].
  change (names (f :: l)) with (name f :: names l).
  intros [Hf Hl]%NoDup_cons. unfold JS.filter. cbn [List.filter].
  destruct (p f); [|by apply IH].
  change (NoDup (name f :: names (JS.filter p l))).
  apply NoDup_cons. split; [|by apply IH].
  intros Hin. by apply Hf, (names_filter_subset p).
Qed.

(** Appending the files of a batch whose names are new keeps names unique,
    provided the batch itself names no file twice. *)
Lemma NoDup_names_append (prev batch : list File) :
  NoDup (names prev) → NoDup (names batch) →
  NoDup (names (prev ++ JS.filter
    (λ newFile,
       negb (some (λ existingFile, name existingFile === name newFile) prev))
    batch)).
Proof.
  intros Hprev Hbatch. unfold names. rewrite List.map_app.
  apply NoDup_app. split; [done|]. split.
  - intros n Hn Hin%list_elem_of_In.
    apply in_map_iff in Hin as (f & <- & Hin).
    apply filter_In in Hin as [_ Hnew]. apply negb_true_iff in Hnew.
    apply (proj2 (some_same_name prev (name f))) in Hn. congruence.
  - by apply (NoDup_names_filter _ batch).
Qed.

Lemma handleFileChange_unique files s :
  NoDup (names (App.resumes s)) → NoDup (names files) →
  NoDup (names (App.resumes (App.handleFileChange files s))).
Proof. apply NoDup_names_append. Qed.

Lemma handleDrop_unique files s :
  NoDup (names (App.resumes s)) → NoDup (names files) →
  NoDup (names (App.resumes (App.handleDrop files s))).
Proof.
  intros Hs Hfiles. apply NoDup_names_append; [done|].
  by apply NoDup_names_filter.
Qed.

Lemma removeFile_unique fileName s :
  NoDup (names (App.resumes s)) →
  NoDup (names (App.resumes (App.removeFile fileName s))).
Proof. apply NoDup_names_filter. Qed.

(** Adding files whose names are all in the collection already changes
    nothing. *)
Lemma handleFileChange_existing files s :
  Forall (λ f, name f ∈ names (App.resumes s)) files →
  App.handleFileChange files s = s.
Proof.
  intros Hall. unfold App.handleFileChange, App.setResumes.
  assert (JS.filter
            (λ newFile,
               negb (some (λ existingFile, name existingFile === name newFile)
                       (App.resumes s))) files = []) as ->.
  { induction Hall as [|f files Hf _ IH]; [done|]. unfold JS.filter in *. simpl.
    apply some_same_name in Hf. by rewrite Hf. }
  rewrite app_nil_r. by destruct s.
Qed.

(** C2, at a batch that names a file twice: two files called [resumeA.pdf],
    dropped together on the empty collection, both pass the comparison with
    the names already collected, and the collection then holds the name
    twice.  The file input does the same. *)
Theorem handleDrop_duplicate_in_batch :
  App.resumes (App.app (App.run [App.Drop [resumeA; resumeA']]))
  = [resumeA; resumeA']
  ∧ App.resumes (App.app (App.run [App.FileChange [resumeA; resumeA']]))
    = [resumeA; resumeA']
  ∧ name resumeA = name resumeA'
  ∧ ¬ NoDup (names (App.resumes
                      (App.app (App.run [App.Drop [resumeA; resumeA']])))).
Proof.
  repeat split. intros H.
  change (NoDup [js "resumeA.pdf"; js "resumeA.pdf"]) in H.
  apply NoDup_cons in H as [H _]. apply H. by left.
Qed.

(** What [handleDrop] adds has one of the two accepted MIME types. *)
Lemma handleDrop_accepted files s f :
  In f (App.resumes (App.handleDrop files s)) →
  In f (App.resumes s) ∨ (In f files ∧ accepted_type (type f)).
Proof.
  simpl. rewrite in_app_iff. intros [H|H]; [by left|right].
  unfold JS.filter in H. apply filter_In in H as [H _].
  apply filter_In in H as [Hin Ht]. split; [done|].
  apply orb_true_iff in Ht as [Ht|Ht]; apply strict_eq_true in Ht;
    [by left|by right].
Qed.

(** C7, at a file chosen through the file input: [handleFileChange] does not
    look at the MIME type, so a [text/plain] file enters the collection,
    where [handleDrop] would have dropped it. *)
Theorem handleFileChange_keeps_any_type :
  App.resumes (App.app (App.run [App.FileChange [notes]])) = [notes]
  ∧ type notes ≠ pdf ∧ type notes ≠ docx
  ∧ App.resumes (App.app (App.run [App.Drop [notes]])) = [].
Proof. repeat split; discriminate. Qed.

(** * The life cycle of a submission *)

Lemma App_run_snoc evs e : App.run (evs ++ [e]) = App.step (App.run evs) e.
Proof. unfold App.run. by rewrite foldl_app. Qed.

Lemma Part000_run_snoc evs e :
  Part000.run (evs ++ [e]) = Part000.step (Part000.run evs) e.
Proof. unfold Part000.run. by rewrite foldl_app. Qed.

Lemma forEach_from_resume_entries i (files : list File) acc :
  forEach_from (λ fd file (_ : nat), fd ++ [(js "resumes", FormFile file)])
    i files acc
  = acc ++ resume_entries files.
Proof.
  revert i acc. induction files as [|f files IH]; intros i acc; simpl.
  - by rewrite app_nil_r.
  - rewrite IH. by rewrite <- app_assoc.
Qed.

Lemma forEach_resume_entries (files : list File) :
  forEach (λ fd file (_ : nat), fd ++ [(js "resumes", FormFile file)]) files []
  = resume_entries files.
Proof. apply forEach_from_resume_entries. Qed.

(** The three ways [handleAnalyze] can return. *)
Lemma handleAnalyze_cases s :
  (App.resumes s = []
   ∧ App.handleAnalyze s
     = (App.setError (Some NoResumes) (App.setAnalyzeClicked true s), None))
  ∨ (App.resumes s ≠ [] ∧ truthy (trim (App.jobDescription s)) = false
     ∧ App.handleAnalyze s
       = (App.setError (Some NoJobDescription)
            (App.setAnalyzeClicked true s), None))
  ∨ (App.resumes s ≠ [] ∧ truthy (trim (App.jobDescription s)) = true
     ∧ ∃ s', App.handleAnalyze s
             = (s', Some (resume_entries (App.resumes s)
                          ++ [(js "job_description",
                               FormText (App.jobDescription s))]))
         ∧ App.resumes s' = App.resumes s
         ∧ App.jobDescription s' = App.jobDescription s
         ∧ App.results s' = Rows [] ∧ App.visibleContent s' = ∅
         ∧ App.analyzing s' = true ∧ App.error s' = None).
Proof.
  unfold App.handleAnalyze. rewrite forEach_resume_entries.
  destruct (App.resumes s) as [|f files] eqn:Hfiles; [by left|right].
  destruct (truthy (trim (App.jobDescription s))) eqn:Hjd; simpl.
  - right. split; [done|]. split; [done|]. eexists. split; [reflexivity|done].
  - left. by repeat split.
Qed.

Lemma Part000_handleAnalyze_cases p :
  (Part000.resumes p = []
   ∧ Part000.handleAnalyze p
     = (Part000.setError (Some NoResumes)
          (Part000.setAnalyzeClicked true p), None))
  ∨ (Part000.resumes p ≠ [] ∧ truthy (trim (Part000.jobDescription p)) = false
     ∧ Part000.handleAnalyze p
       = (Part000.setError (Some NoJobDescription)
            (Part000.setAnalyzeClicked true p), None))
  ∨ (Part000.resumes p ≠ [] ∧ truthy (trim (Part000.jobDescription p)) = true
     ∧ ∃ p', Part000.handleAnalyze p
             = (p', Some ((resume_entries (Part000.resumes p)
                           ++ [(js "job_description",
                                FormText (Part000.jobDescription p))])
                          ++ [(js "required_experience",
                               FormText (ToString
                                 (Part000.requiredExperience p)))]))
         ∧ Part000.resumes p' = Part000.resumes p
         ∧ Part000.jobDescription p' = Part000.jobDescription p
         ∧ Part000.results p' = Part000.results p
         ∧ Part000.visibleContent p' = Part000.visibleContent p
         ∧ Part000.analyzing p' = true ∧ Part000.error p' = None
         ∧ Part000.requiredExperience p' = Part000.requiredExperience p).
Proof.
  unfold Part000.handleAnalyze. rewrite forEach_resume_entries.
  destruct (Part000.resumes p) as [|f files] eqn:Hfiles; [by left|right].
  destruct (truthy (trim (Part000.jobDescription p))) eqn:Hjd; simpl.
  - right. split; [done|]. split; [done|]. eexists. split; [reflexivity|done].
  - left. by repeat split.
Qed.

Lemma step_lifecycle sys e : App_lifecycle sys → App_lifecycle (App.step sys e).
Proof.
  intros [[Hout Hidle]|(fd & Hout & Hbusy & Hres & Hvis)].
  - destruct e; simpl; try (by left).
    + rewrite Hidle.
      destruct (handleAnalyze_cases (App.app sys))
        as [[_ ->]|[(_ & _ & ->)|(_ & _ & s' & -> & H)]].
      * by left.
      * by left.
      * right. exists (resume_entries (App.resumes (App.app sys))
                       ++ [(js "job_description",
                            FormText (App.jobDescription (App.app sys)))]).
        rewrite Hout. simpl. destruct H as (_ & _ & ? & ? & ? & _). done.
    + rewrite Hout. by left.
    + case_match; by left.
    + case_match; by left.
    + destruct (0 <? _)%nat; [|by left]. left. simpl.
      by rewrite sortByScore_analyzing.
  - destruct e; simpl; try (right; exists fd; done).
    + rewrite Hbusy. right. by exists fd.
    + rewrite Hout. left. by destruct r.
    + rewrite Hres. simpl. replace (index <? 0)%nat with false
        by (symmetry; apply Nat.ltb_ge; lia). right. by exists fd.
    + rewrite Hres. simpl. replace (index <? 0)%nat with false
        by (symmetry; apply Nat.ltb_ge; lia). right. by exists fd.
    + rewrite Hres. simpl. right. by exists fd.
Qed.

Lemma run_lifecycle evs : App_lifecycle (App.run evs).
Proof.
  induction evs as [|e evs IH] using rev_ind.
  - by left.
  - rewrite App_run_snoc. by apply step_lifecycle.
Qed.

Lemma Part000_step_lifecycle sys e :
  Part000_lifecycle sys → Part000_lifecycle (Part000.step sys e).
Proof.
  intros [[Hout Hidle]|(fd & Hout & Hbusy)].
  - destruct e; simpl; try (by left).
    + case_match; by left.
    + rewrite Hidle.
      destruct (Part000_handleAnalyze_cases (Part000.app sys))
        as [[_ ->]|[(_ & _ & ->)|(_ & _ & s' & -> & H)]].
      * by left.
      * by left.
      * right. eexists. rewrite Hout. simpl.
        destruct H as (_ & _ & _ & _ & ? & _). done.
    + rewrite Hout. by left.
    + case_match; by left.
    + case_match; by left.
  - destruct e; simpl; try (right; exists fd; done).
    + case_match; right; by exists fd.
    + rewrite Hbusy. right. by exists fd.
    + rewrite Hout. left. by destruct r.
    + case_match; right; by exists fd.
    + case_match; right; by exists fd.
Qed.

Lemma Part000_run_lifecycle evs : Part000_lifecycle (Part000.run evs).
Proof.
  induction evs as [|e evs IH] using rev_ind.
  - by left.
  - rewrite Part000_run_snoc. by apply Part000_step_lifecycle.
Qed.

(** The result list gets rows only when a successful response is delivered
    for an outstanding request. *)
Lemma step_rows sys e :
  rows (App.results (App.app (App.step sys e))) ≠ [] →
  rows (App.results (App.app sys)) ≠ []
  ∨ (∃ data, e = App.Settle (Resolved data) ∧ App.outstanding sys ≠ []
             ∧ data ≠ []).
Proof.
  destruct e; simpl; try (by left).
  - destruct (App.analyzing (App.app sys)); [by left|].
    destruct (handleAnalyze_cases (App.app sys))
      as [[_ ->]|[(_ & _ & ->)|(_ & _ & s' & -> & H)]]; simpl; try (by left).
    destruct H as (_ & _ & Hres & _). intros Hne. by rewrite Hres in Hne.
  - destruct (App.outstanding sys) eqn:Hout; [by left|].
    destruct r as [data|body|]; simpl; [|done|by left].
    intros Hne. right. by exists data.
  - case_match; by left.
  - case_match; by left.
  - case_match eqn:Hrows; [|by left]. intros _. left. intros Hnil.
    by rewrite Hnil in Hrows.
Qed.

(** The [results] cell leaves the empty array only when a 2xx response is
    delivered for an outstanding request. *)
Lemma step_results sys e :
  App.results (App.app (App.step sys e)) ≠ Rows [] →
  App.results (App.app sys) ≠ Rows []
  ∨ (∃ r, e = App.Settle r ∧ App.outstanding sys ≠ [] ∧ r ≠ Rejected).
Proof.
  destruct e; simpl; try (by left).
  - destruct (App.analyzing (App.app sys)); [by left|].
    destruct (handleAnalyze_cases (App.app sys))
      as [[_ ->]|[(_ & _ & ->)|(_ & _ & s' & -> & H)]]; simpl; try (by left).
    destruct H as (_ & _ & Hres & _). intros Hne. by rewrite Hres in Hne.
  - destruct (App.outstanding sys) eqn:Hout; [by left|].
    destruct r as [data|body|]; simpl; [| |by left].
    + intros _. right. by exists (Resolved data).
    + intros _. right. by exists (Malformed body).
  - case_match; by left.
  - case_match; by left.
  - case_match eqn:Hrows; [|by left]. intros _. left. intros Hnil.
    by rewrite Hnil in Hrows.
Qed.

(** C3, amended.  In [App.jsx], when the validation passes, the step of
    [handleAnalyze] that posts the request leaves the result list and the
    visibility records empty; in every state the page can reach, results
    and visibility records are empty while a request is outstanding; a
    result list with rows was delivered by a successful response to an
    outstanding request; and the [results] cell holds anything but the
    empty array only after a 2xx response was delivered to an outstanding
    request.  In [part_000] the step that posts the request leaves the
    results and the visibility records as they were. *)
Theorem handleAnalyze_clears_results :
  (∀ s, App.resumes s ≠ [] → truthy (trim (App.jobDescription s)) = true →
     ∃ s' formData, App.handleAnalyze s = (s', Some formData)
       ∧ App.results s' = Rows [] ∧ App.visibleContent s' = ∅
       ∧ App.analyzing s' = true)
  ∧ (∀ evs, App.outstanding (App.run evs) ≠ [] →
       App.results (App.app (App.run evs)) = Rows []
       ∧ App.visibleContent (App.app (App.run evs)) = ∅)
  ∧ (∀ evs, rows (App.results (App.app (App.run evs))) ≠ [] →
       App.outstanding (App.run evs) = []
       ∧ ∃ before data after,
           evs = before ++ App.Settle (Resolved data) :: after
           ∧ App.outstanding (App.run before) ≠ [] ∧ data ≠ [])
  ∧ (∀ evs, App.results (App.app (App.run evs)) ≠ Rows [] →
       App.outstanding (App.run evs) = []
       ∧ ∃ before r after,
           evs = before ++ App.Settle r :: after
           ∧ App.outstanding (App.run before) ≠ [] ∧ r ≠ Rejected)
  ∧ (∀ p, Part000.resumes p ≠ [] →
       truthy (trim (Part000.jobDescription p)) = true →
       ∃ p' formData, Part000.handleAnalyze p = (p', Some formData)
         ∧ Part000.results p' = Part000.results p
         ∧ Part000.visibleContent p' = Part000.visibleContent p
         ∧ Part000.analyzing p' = true).
Proof.
  split; [|split; [|split; [|split]]].
  - intros s Hfiles Hjd.
    destruct (handleAnalyze_cases s)
      as [[Hnil _]|[(_ & Hblank & _)|(_ & _ & s' & Heq & H)]];
      [done|congruence|].
    exists s'. eexists. split; [exact Heq|]. tauto.
  - intros evs Hout.
    destruct (run_lifecycle evs) as [[Hnil _]|(fd & _ & _ & Hres & Hvis)];
      [done|]. by split.
  - intros evs Hres. split.
    { destruct (run_lifecycle evs) as [[Hnil _]|(fd & _ & _ & Hnil & _)];
        [done|]. by rewrite Hnil in Hres. }
    induction evs as [|e evs IH] using rev_ind; [done|].
    rewrite App_run_snoc in Hres.
    apply step_rows in Hres as [Hres|(data & -> & Hout & Hdata)].
    + destruct (IH Hres) as (before & data & after & -> & Hout & Hdata).
      exists before, data, (after ++ [e]).
      by rewrite <- app_assoc, <- app_comm_cons.
    + by exists evs, data, [].
  - intros evs Hres. split.
    { destruct (run_lifecycle evs) as [[Hnil _]|(fd & _ & _ & Hnil & _)];
        [done|]. by rewrite Hnil in Hres. }
    induction evs as [|e evs IH] using rev_ind; [done|].
    rewrite App_run_snoc in Hres.
    apply step_results in Hres as [Hres|(r & -> & Hout & Hr)].
    + destruct (IH Hres) as (before & r & after & -> & Hout & Hr).
      exists before, r, (after ++ [e]).
      by rewrite <- app_assoc, <- app_comm_cons.
    + by exists evs, r, [].
  - intros p Hfiles Hjd.
    destruct (Part000_handleAnalyze_cases p)
      as [[Hnil _]|[(_ & Hblank & _)|(_ & _ & p' & Heq & H)]];
      [done|congruence|].
    exists p'. eexists. split; [exact Heq|]. tauto.
Qed.

Lemma handleAnalyze_clears_results_witness :
  (∃ s' formData,
     App.handleAnalyze (App.app (App.run analysed)) = (s', Some formData)
     ∧ App.results s' = Rows [] ∧ App.visibleContent s' = ∅
     ∧ App.analyzing s' = true)
  ∧ App.results (App.app (App.run analysed)) = Rows [candidateA; candidateB]
  ∧ App.results (App.app (App.run resubmitted)) = Rows []
  ∧ App.visibleContent (App.app (App.run resubmitted)) = ∅
  ∧ (∃ p' formData,
       Part000.handleAnalyze (Part000.app (Part000.run analysed000))
       = (p', Some formData)
       ∧ Part000.results p'
         = Part000.results (Part000.app (Part000.run analysed000))
       ∧ Part000.visibleContent p'
         = Part000.visibleContent (Part000.app (Part000.run analysed000))
       ∧ Part000.analyzing p' = true).
Proof.
  destruct handleAnalyze_clears_results as (H1 & H2 & _ & _ & H5).
  split; [apply H1; [discriminate|reflexivity]|].
  split; [reflexivity|].
  split; [apply H2; discriminate|].
  split; [apply H2; discriminate|].
  apply H5; [discriminate|reflexivity].
Defined.

(** C3, as stated, fails of [part_000]: its [handleAnalyze] has no clearing
    statements, so the results of the previous analysis stay on the page
    while the next request is outstanding. *)
Lemma Part000_handleAnalyze_keeps_results :
  ¬ (∀ evs, Part000.outstanding (Part000.run evs) ≠ [] →
       Part000.results (Part000.app (Part000.run evs)) = Rows []).
Proof.
  intros H. specialize (H resubmitted000). discriminate H. discriminate.
Qed.

(** The run that shows it. *)
Lemma resubmitted000_results :
  Part000.outstanding (Part000.run resubmitted000) ≠ []
  ∧ Part000.results (Part000.app (Part000.run resubmitted000))
    = Rows [candidateA; candidateB].
Proof. split; [discriminate|reflexivity]. Qed.

(** * One request at a time *)

(** C5: the Analyze button, the only caller of [handleAnalyze], is disabled
    while [analyzing] holds.  So in every state the page can reach at most
    one request is outstanding, and while one is, the component is
    analyzing and a click on the button posts nothing and leaves the state
    as it is.  The same in [part_000]. *)
Theorem analyze_button_serializes :
  (∀ evs, (length (App.outstanding (App.run evs)) ≤ 1)%nat
          ∧ (App.outstanding (App.run evs) ≠ [] →
             App.analyzing (App.app (App.run evs)) = true
             ∧ App.step (App.run evs) App.ClickAnalyze = App.run evs))
  ∧ (∀ evs, (length (Part000.outstanding (Part000.run evs)) ≤ 1)%nat
            ∧ (Part000.outstanding (Part000.run evs) ≠ [] →
               Part000.analyzing (Part000.app (Part000.run evs)) = true
               ∧ Part000.step (Part000.run evs) Part000.ClickAnalyze
                 = Part000.run evs)).
Proof.
  split; intros evs.
  - destruct (run_lifecycle evs) as [[Hout _]|(fd & Hout & Hbusy & _)];
      rewrite Hout; simpl; (split; [lia|]); [done|].
    intros _. split; [done|]. by rewrite Hbusy.
  - destruct (Part000_run_lifecycle evs) as [[Hout _]|(fd & Hout & Hbusy)];
      rewrite Hout; simpl; (split; [lia|]); [done|].
    intros _. split; [done|]. by rewrite Hbusy.
Qed.

Lemma analyze_button_serializes_witness :
  (App.analyzing (App.app (App.run submitted)) = true
   ∧ App.step (App.run submitted) App.ClickAnalyze = App.run submitted)
  ∧ (Part000.analyzing (Part000.app (Part000.run resubmitted000)) = true
     ∧ Part000.step (Part000.run resubmitted000) Part000.ClickAnalyze
       = Part000.run resubmitted000).
Proof.
  split.
  - apply (proj2 (proj1 analyze_button_serializes submitted)). discriminate.
  - apply (proj2 (proj2 analyze_button_serializes resubmitted000)).
    discriminate.
Defined.

(** * What a failed submission leaves behind *)




(** The runs of the page that show it: the second submission of
    [resubmitted_failed] is rejected, and the two results of the first are
    gone; that of [resubmitted_malformed] is answered with a page of text,
    which [results] then holds and which the results section cannot
    render. *)
Lemma resubmitted_failed_results :
  App.results (App.app (App.run analysed)) = Rows [candidateA; candidateB]
  ∧ App.results (App.app (App.run resubmitted_failed)) = Rows []
  ∧ App.error (App.app (App.run resubmitted_failed)) = Some AnalysisFailed
  ∧ App.resumes (App.app (App.run resubmitted_failed))
    = App.resumes (App.app (App.run analysed)).
Proof. by vm_compute. Qed.

Lemma resubmitted_malformed_results :
  App.results (App.app (App.run resubmitted_malformed)) = Body gateway_page
  ∧ App.error (App.app (App.run resubmitted_malformed)) = Some AnalysisFailed
  ∧ App.resumes (App.app (App.run resubmitted_malformed))
    = App.resumes (App.app (App.run analysed))
  ∧ App.results_section (App.app (App.run resubmitted_malformed))
    = App.RenderThrows.
Proof. by vm_compute. Qed.

(** * The [required_experience] field *)

Lemma form_get_app key (fd fd' : FormData) :
  form_get key (fd ++ fd')
  = match form_get key fd with
    | Some v => Some v
    | None => form_get key fd'
    end.
Proof.
  induction fd as [|[k v] fd IH]; simpl; [done|].
  by destruct (k === key).
Qed.

Lemma form_get_resume_entries key files :
  key ≠ js "resumes" → form_get key (resume_entries files) = None.
Proof.
  intros Hne. induction files as [|f files IH]; simpl; [done|].
  destruct (js "resumes" === key) eqn:E; [|done].
  apply strict_eq_true in E. congruence.
Qed.

Lemma form_keys_app (fd fd' : FormData) :
  form_keys (fd ++ fd') = form_keys fd ++ form_keys fd'.
Proof. apply List.map_app. Qed.

Lemma form_keys_resume_entries key files :
  key ∈ form_keys (resume_entries files) → key = js "resumes".
Proof.
  induction files as [|f files IH]; simpl.
  - by intros ?%elem_of_nil.
  - intros [->|?]%elem_of_cons; [done|by apply IH].
Qed.

Lemma pretty_nat_Z (i : nat) : pretty i = pretty (Z.of_nat i).
Proof. by destruct i. Qed.

Lemma option_value_in_range i :
  (i < Part000.option_count)%nat → years_in_range (Part000.option_value i).
Proof.
  intros Hlt. exists (Z.of_nat i). unfold Part000.option_count in Hlt.
  split; [lia|]. simpl. unfold index_string. by rewrite pretty_nat_Z.
Qed.

(** What [handleAnalyze] of [part_000] posts carries the selector's value. *)
Lemma Part000_handleAnalyze_sends p p' formData :
  Part000.handleAnalyze p = (p', Some formData) →
  form_get (js "required_experience") formData
  = Some (FormText (ToString (Part000.requiredExperience p))).
Proof.
  intros Heq.
  destruct (Part000_handleAnalyze_cases p)
    as [[_ H]|[(_ & _ & H)|(_ & _ & p1 & H & _)]];
    rewrite H in Heq; [discriminate Heq|discriminate Heq|].
  injection Heq as _ <-.
  rewrite !form_get_app, form_get_resume_entries by discriminate.
  reflexivity.
Qed.

Lemma Part000_step_years sys e :
  years_in_range (Part000.requiredExperience (Part000.app sys))
  ∧ Forall sends_years_in_range (Part000.outstanding sys) →
  years_in_range
    (Part000.requiredExperience (Part000.app (Part000.step sys e)))
  ∧ Forall sends_years_in_range (Part000.outstanding (Part000.step sys e)).
Proof.
  intros [Hsel Hout]. destruct e; simpl; try done.
  - destruct (i <? Part000.option_count)%nat eqn:Hi; [|done].
    split; [|done]. by apply option_value_in_range, Nat.ltb_lt.
  - destruct (Part000.analyzing (Part000.app sys)); [done|].
    destruct (Part000.handleAnalyze (Part000.app sys)) as [p' [fd|]] eqn:Heq.
    + pose proof (Part000_handleAnalyze_sends _ _ _ Heq) as Hfd.
      destruct (Part000_handleAnalyze_cases (Part000.app sys))
        as [[_ H]|[(_ & _ & H)|(_ & _ & p1 & H & Hp1)]];
        rewrite H in Heq; [discriminate Heq|discriminate Heq|].
      injection Heq as <- _. simpl.
      split; [by rewrite (proj2 (proj2 (proj2 (proj2 (proj2 (proj2 Hp1))))))|].
      apply Forall_app. split; [done|]. constructor; [|done].
      destruct Hsel as (n & Hn & Hstr). exists n. split; [done|].
      by rewrite Hfd, Hstr.
    + destruct (Part000_handleAnalyze_cases (Part000.app sys))
        as [[_ H]|[(_ & _ & H)|(_ & _ & p1 & H & _)]];
        rewrite H in Heq; [| |discriminate Heq]; by injection Heq as <-.
  - destruct (Part000.outstanding sys) as [|fd rest] eqn:Hq; simpl.
    + by rewrite Hq.
    + apply Forall_cons in Hout as [_ Hrest]. by destruct r.
  - by case_match.
  - by case_match.
Qed.

Lemma Part000_run_years evs :
  years_in_range (Part000.requiredExperience (Part000.app (Part000.run evs)))
  ∧ Forall sends_years_in_range (Part000.outstanding (Part000.run evs)).
Proof.
  induction evs as [|e evs IH] using rev_ind.
  - split; [|constructor]. exists 0. by split; [lia|].
  - rewrite Part000_run_snoc. by apply Part000_step_years.
Qed.

(** Only the selector changes [requiredExperience]. *)
Lemma Part000_step_requiredExperience sys e :
  (∀ i, e ≠ Part000.ChangeRequiredExperience i) →
  Part000.requiredExperience (Part000.app (Part000.step sys e))
  = Part000.requiredExperience (Part000.app sys).
Proof.
  intros Hsel. destruct e; simpl; try done.
  - by destruct (Hsel i).
  - destruct (Part000.analyzing (Part000.app sys)); [done|].
    destruct (Part000_handleAnalyze_cases (Part000.app sys))
      as [[_ ->]|[(_ & _ & ->)|(_ & _ & p' & -> & H)]]; simpl; try done.
    apply H.
  - destruct (Part000.outstanding sys); [done|]. by destruct r.
  - by case_match.
  - by case_match.
Qed.

(** C9: in [part_000] the selector starts at 0 and holds 0 as long as
    nothing was selected.  Whenever the validation passes, [handleAnalyze]
    posts a request whose [required_experience] field holds the value of
    the selector; a click on Analyze at an idle page with valid inputs
    (a page that is rendered: its results are an array) posts one
    request, and its field is the decimal string of an integer from 0 to
    20.  Every request the page posts, in any state it can
    reach, carries such a field.  In [App.jsx], whenever the validation
    passes, [handleAnalyze] posts a request that has no such field. *)
Theorem required_experience_field :
  Part000.requiredExperience Part000.initial = JNumber 0
  ∧ ToString (Part000.requiredExperience Part000.initial) = js "0"
  ∧ (∀ evs p' formData,
       Part000.handleAnalyze (Part000.app (Part000.run evs))
       = (p', Some formData) →
       form_get (js "required_experience") formData
       = Some (FormText (ToString (Part000.requiredExperience
                                     (Part000.app (Part000.run evs)))))
       ∧ sends_years_in_range formData)
  ∧ (∀ evs,
       Forall sends_years_in_range (Part000.outstanding (Part000.run evs)))
  ∧ (∀ s s' formData, App.handleAnalyze s = (s', Some formData) →
       js "required_experience" ∉ form_keys formData)
  ∧ (∀ p, Part000.resumes p ≠ [] →
       truthy (trim (Part000.jobDescription p)) = true →
       ∃ p' formData, Part000.handleAnalyze p = (p', Some formData)
         ∧ form_get (js "required_experience") formData
           = Some (FormText (ToString (Part000.requiredExperience p))))
  ∧ (∀ evs, Part000.resumes (Part000.app (Part000.run evs)) ≠ [] →
       truthy (trim (Part000.jobDescription (Part000.app (Part000.run evs))))
       = true →
       Part000.analyzing (Part000.app (Part000.run evs)) = false →
       (∃ l, Part000.results (Part000.app (Part000.run evs)) = Rows l) →
       ∃ formData,
         Part000.outstanding (Part000.step (Part000.run evs)
                                Part000.ClickAnalyze)
         = [formData]
         ∧ form_get (js "required_experience") formData
           = Some (FormText (ToString (Part000.requiredExperience
                                         (Part000.app (Part000.run evs)))))
         ∧ sends_years_in_range formData)
  ∧ (∀ evs, (∀ i, Part000.ChangeRequiredExperience i ∉ evs) →
       Part000.requiredExperience (Part000.app (Part000.run evs))
       = JNumber 0)
  ∧ (∀ s, App.resumes s ≠ [] → truthy (trim (App.jobDescription s)) = true →
       ∃ s' formData, App.handleAnalyze s = (s', Some formData)
         ∧ js "required_experience" ∉ form_keys formData).
Proof.
  assert (∀ s s' formData, App.handleAnalyze s = (s', Some formData) →
            js "required_experience" ∉ form_keys formData) as Habsent.
  { intros s s' fd Heq.
    destruct (handleAnalyze_cases s)
      as [[_ H]|[(_ & _ & H)|(_ & _ & s1 & H & _)]];
      rewrite H in Heq; [discriminate Heq|discriminate Heq|].
    injection Heq as _ <-. rewrite form_keys_app.
    intros [Hin|Hin]%elem_of_app.
    + apply form_keys_resume_entries in Hin. discriminate Hin.
    + apply list_elem_of_singleton in Hin. discriminate Hin. }
  assert (∀ evs p' formData,
            Part000.handleAnalyze (Part000.app (Part000.run evs))
            = (p', Some formData) →
            form_get (js "required_experience") formData
            = Some (FormText (ToString (Part000.requiredExperience
                                          (Part000.app (Part000.run evs)))))
            ∧ sends_years_in_range formData) as Hsent.
  { intros evs p' fd Heq.
    pose proof (Part000_handleAnalyze_sends _ _ _ Heq) as Hfd.
    split; [done|].
    destruct (Part000_run_years evs) as [(n & Hn & Hstr) _].
    exists n. split; [done|]. by rewrite Hfd, Hstr. }
  split; [done|]. split; [done|]. split; [exact Hsent|].
  split; [intros evs; apply Part000_run_years|]. split; [exact Habsent|].
  split; [|split; [|split]].
  - intros p Hfiles Hjd.
    destruct (Part000_handleAnalyze_cases p)
      as [[Hnil _]|[(_ & Hblank & _)|(_ & _ & p' & Heq & _)]];
      [done|congruence|].
    exists p'. eexists. split; [exact Heq|].
    by apply (Part000_handleAnalyze_sends p p').
  - intros evs Hfiles Hjd Hidle _.
    destruct (Part000_run_lifecycle evs) as [[Hout _]|(fd & _ & Hbusy)];
      [|congruence].
    destruct (Part000_handleAnalyze_cases (Part000.app (Part000.run evs)))
      as [[Hnil _]|[(_ & Hblank & _)|(_ & _ & p' & Heq & _)]];
      [done|congruence|].
    eexists. simpl. rewrite Hidle, Heq, Hout. simpl.
    split; [reflexivity|]. by apply (Hsent evs p').
  - intros evs Hsel. induction evs as [|e evs IH] using rev_ind; [done|].
    rewrite Part000_run_snoc, Part000_step_requiredExperience.
    + apply IH. intros i Hin. apply (Hsel i), elem_of_app. by left.
    + intros i ->. apply (Hsel i), elem_of_app. right. by left.
  - intros s Hfiles Hjd.
    destruct (handleAnalyze_cases s)
      as [[Hnil _]|[(_ & Hblank & _)|(_ & _ & s' & Heq & _)]];
      [done|congruence|].
    exists s'. eexists. split; [exact Heq|]. by apply (Habsent s s').
Qed.

(** At the page of [part_000] with one resume, a description and seven
    years selected: a click on Analyze posts one request, with
    [required_experience] = ["7"].  At the page of [App.jsx] with the same
    inputs, [handleAnalyze] posts a request without the field. *)
Lemma required_experience_field_witness :
  ToString (Part000.requiredExperience (Part000.app (Part000.run ready000)))
  = js "7"
  ∧ (∃ formData,
       Part000.outstanding (Part000.step (Part000.run ready000)
                              Part000.ClickAnalyze)
       = [formData]
       ∧ form_get (js "required_experience") formData
         = Some (FormText (ToString (Part000.requiredExperience
                                       (Part000.app (Part000.run ready000)))))
       ∧ sends_years_in_range formData)
  ∧ (∃ s' formData,
       App.handleAnalyze (App.app (App.run ready)) = (s', Some formData)
       ∧ js "required_experience" ∉ form_keys formData).
Proof.
  destruct required_experience_field as (_ & _ & _ & _ & _ & _ & H1 & _ & H2).
  split; [by vm_compute|]. split.
  - apply (H1 ready000);
      [discriminate|by vm_compute|by vm_compute|by exists []].
  - apply (H2 (App.app (App.run ready))); [discriminate|by vm_compute].
Defined.

(** * More about the file collection *)

(** What [handleAnalyze] and its continuations leave alone. *)
Lemma handleAnalyze_inputs s :
  App.resumes (fst (App.handleAnalyze s)) = App.resumes s
  ∧ App.jobDescription (fst (App.handleAnalyze s)) = App.jobDescription s.
Proof.
  destruct (handleAnalyze_cases s)
    as [[_ ->]|[(_ & _ & ->)|(_ & _ & s' & -> & H)]]; simpl; try done.
  by destruct H as (-> & -> & _).
Qed.

Lemma step_resumes sys e :
  App.resumes (App.app (App.step sys e))
  = match e with
    | App.FileChange files =>
        App.resumes (App.handleFileChange files (App.app sys))
    | App.Drop files => App.resumes (App.handleDrop files (App.app sys))
    | App.ClickRemove fileName =>
        App.resumes (App.removeFile fileName (App.app sys))
    | _ => App.resumes (App.app sys)
    end.
Proof.
  destruct e; simpl; try done.
  - destruct (App.analyzing (App.app sys)); [done|].
    pose proof (handleAnalyze_inputs (App.app sys)) as [H _].
    by destruct (App.handleAnalyze (App.app sys)) as [s' [fd|]].
  - destruct (App.outstanding sys); [done|]. by destruct r.
  - by case_match.
  - by case_match.
  - case_match; [|done]. apply sortByScore_frame.
Qed.

(** X1: names stay unique along every run of the page in which no single
    selection or drop offers the same name twice. *)
Theorem run_unique_names (evs : list App.event) :
  distinct_batches evs →
  NoDup (names (App.resumes (App.app (App.run evs)))).
Proof.
  induction evs as [|e evs IH] using rev_ind; intros Hd.
  - constructor.
  - apply Forall_app in Hd as [Hevs He]. apply Forall_cons in He as [He _].
    specialize (IH Hevs). rewrite App_run_snoc, step_resumes.
    destruct e; try done.
    + by apply handleFileChange_unique.
    + by apply handleDrop_unique.
    + by apply removeFile_unique.
Qed.

Lemma run_unique_names_witness :
  NoDup (names (App.resumes (App.app (App.run
    [ App.Drop [resumeA; resumeB]; App.FileChange [resumeA'];
      App.ClickRemove (js "resumeB.pdf"); App.Drop [resumeB; notes] ])))).
Proof.
  apply run_unique_names. unfold distinct_batches.
  repeat (apply Forall_cons; split); try apply Forall_nil;
    apply (bool_decide_unpack _); vm_compute; exact I.
Defined.

Lemma filter_all_collected (prev files : list File) :
  Forall (λ f, name f ∈ names prev) files →
  JS.filter
    (λ newFile,
       negb (some (λ existingFile, name existingFile === name newFile) prev))
    files = [].
Proof.
  induction 1 as [|f files Hf _ IH]; [done|]. unfold JS.filter in *. simpl.
  apply some_same_name in Hf. by rewrite Hf.
Qed.

(** X2: offering files whose names are all collected already changes nothing:
    the file input leaves the whole state as it is, a drop leaves the
    collection as it is (it only ends the drag highlight). *)
Theorem adding_collected_names_noop (files : list File) (s : App.State) :
  Forall (λ f, name f ∈ names (App.resumes s)) files →
  App.handleFileChange files s = s
  ∧ App.resumes (App.handleDrop files s) = App.resumes s.
Proof.
  intros Hall. split; [by apply handleFileChange_existing|].
  simpl. rewrite filter_all_collected; [by rewrite app_nil_r|].
  induction Hall as [|f files Hf _ IH]; unfold JS.filter; simpl; [done|].
  destruct (_ || _); [by constructor|done].
Qed.

Lemma adding_collected_names_noop_witness :
  App.handleFileChange [resumeA'; resumeB] (App.app (App.run analysed))
  = App.app (App.run analysed)
  ∧ App.resumes (App.handleDrop [resumeA'; resumeB]
                   (App.app (App.run analysed)))
    = App.resumes (App.app (App.run analysed)).
Proof.
  apply adding_collected_names_noop.
  apply Forall_cons_2; [|apply Forall_cons_2; [|apply Forall_nil_2]];
    apply (bool_decide_unpack _); vm_compute; exact I.
Defined.

Lemma elem_of_JS_filter {A} (p : A → bool) (l : list A) (x : A) :
  x ∈ JS.filter p l ↔ x ∈ l ∧ p x = true.
Proof. unfold JS.filter. rewrite !list_elem_of_In. apply filter_In. Qed.

Lemma accepted_type_true f :
  ((type f === pdf) || (type f === docx)) = true ↔ accepted_type (type f).
Proof.
  unfold accepted_type. rewrite orb_true_iff, !strict_eq_true. tauto.
Qed.

Lemma new_name_true (prev : list File) f :
  negb (some (λ existingFile, name existingFile === name f) prev) = true
  ↔ name f ∉ names prev.
Proof.
  rewrite negb_true_iff, <- not_true_iff_false. by rewrite some_same_name.
Qed.

(** X3: what a drop adds: the files already collected stay in front, in their
    order, and a file is in the collection afterwards exactly if it was
    there before or is a dropped file of an accepted type whose name was
    not collected.  [part_000] adds every dropped file of an accepted
    type, whatever its name. *)
Theorem handleDrop_adds_exactly (files : list File) (f : File)
    (s : App.State) (p : Part000.State) :
  App.resumes s `prefix_of` App.resumes (App.handleDrop files s)
  ∧ (f ∈ App.resumes (App.handleDrop files s)
     ↔ f ∈ App.resumes s
       ∨ (f ∈ files ∧ accepted_type (type f)
          ∧ name f ∉ names (App.resumes s)))
  ∧ Part000.resumes p `prefix_of` Part000.resumes (Part000.handleDrop files p)
  ∧ (f ∈ Part000.resumes (Part000.handleDrop files p)
     ↔ f ∈ Part000.resumes p ∨ (f ∈ files ∧ accepted_type (type f))).
Proof.
  split; [by eexists|]. split; [|split; [by eexists|]]; simpl.
  - rewrite elem_of_app, !elem_of_JS_filter, accepted_type_true,
      new_name_true. tauto.
  - rewrite elem_of_app, elem_of_JS_filter, accepted_type_true. tauto.
Qed.

Lemma JS_filter_sublist {A} (p : A → bool) (l : list A) :
  JS.filter p l `sublist_of` l.
Proof.
  unfold JS.filter. induction l as [|x l IH]; simpl; [done|].
  destruct (p x); by constructor.
Qed.

(** X4: [removeFile] takes out every file of the given name and nothing else,
    keeping the order of the rest. *)
Theorem removeFile_removes (fileName : js_string) (f : File) (s : App.State) :
  (fileName ∉ names (App.resumes (App.removeFile fileName s)))
  ∧ (f ∈ App.resumes (App.removeFile fileName s)
     ↔ f ∈ App.resumes s ∧ name f ≠ fileName)
  ∧ App.resumes (App.removeFile fileName s) `sublist_of` App.resumes s.
Proof.
  assert (∀ g, g ∈ App.resumes (App.removeFile fileName s)
               ↔ g ∈ App.resumes s ∧ name g ≠ fileName) as Hin.
  { intros g. simpl. rewrite elem_of_JS_filter, negb_true_iff,
      <- not_true_iff_false, strict_eq_true. tauto. }
  split; [|split; [apply Hin|apply JS_filter_sublist]].
  unfold names. rewrite list_elem_of_In, in_map_iff.
  intros (g & Hname & Hg%list_elem_of_In). apply Hin in Hg. tauto.
Qed.

Lemma filter_other_names (fileName : js_string) (l : list File) :
  fileName ∉ names l →
  JS.filter (λ file, negb (name file === fileName)) l = l.
Proof.
  unfold JS.filter. induction l as [|g l IH]; [done|].
  change (names (g :: l)) with (name g :: names l).
  intros [Hg Hl]%not_elem_of_cons. simpl.
  destruct (name g === fileName) eqn:E.
  - apply strict_eq_true in E. congruence.
  - simpl. by rewrite IH.
Qed.

(** X5: removing a name that is not collected changes nothing. *)
Theorem removeFile_absent (fileName : js_string) (s : App.State) :
  fileName ∉ names (App.resumes s) → App.removeFile fileName s = s.
Proof.
  intros Habs. unfold App.removeFile, App.setResumes.
  rewrite filter_other_names by done. by destruct s.
Qed.

Lemma removeFile_absent_witness :
  App.removeFile (js "resumeC.pdf") (App.app (App.run analysed))
  = App.app (App.run analysed).
Proof.
  apply removeFile_absent.
  apply (bool_decide_unpack _); vm_compute; exact I.
Defined.

Lemma filter_same_name (fileName : js_string) (l : list File) :
  Forall (λ file, name file = fileName) l →
  JS.filter (λ file, negb (name file === fileName)) l = [].
Proof.
  unfold JS.filter. induction 1 as [|g l Hg _ IH]; [done|]. simpl.
  by rewrite (proj2 (strict_eq_true _ _) Hg).
Qed.

Lemma Forall_JS_filter {A} (P : A → Prop) (p : A → bool) (l : list A) :
  Forall P l → Forall P (JS.filter p l).
Proof.
  unfold JS.filter. induction 1 as [|x l Hx _ IH]; simpl; [done|].
  destruct (p x); [by constructor|done].
Qed.

(** X6: removing a file that was just added, by drop or through the file
    input, gives back the collection as it was before, if the name was
    not collected then. *)
Theorem removeFile_undoes_add (f : File) (s : App.State) :
  name f ∉ names (App.resumes s) →
  App.resumes (App.removeFile (name f) (App.handleDrop [f] s))
  = App.resumes s
  ∧ App.removeFile (name f) (App.handleFileChange [f] s) = s.
Proof.
  intros Hnew. split.
  - unfold App.removeFile, App.handleDrop, App.setResumes, App.setIsDragOver.
    cbn [App.resumes]. unfold JS.filter at 1. rewrite List.filter_app.
    fold (JS.filter (λ file, negb (name file === name f)) (App.resumes s)).
    rewrite filter_other_names by done.
    rewrite (filter_same_name (name f)); [by rewrite app_nil_r|].
    do 2 apply Forall_JS_filter. by constructor.
  - unfold App.removeFile, App.handleFileChange, App.setResumes.
    cbn [App.resumes].
    unfold JS.filter at 1. rewrite List.filter_app.
    fold (JS.filter (λ file, negb (name file === name f)) (App.resumes s)).
    rewrite filter_other_names by done.
    rewrite (filter_same_name (name f)).
    + rewrite app_nil_r. by destruct s.
    + apply Forall_JS_filter. by constructor.
Qed.

Lemma removeFile_undoes_add_witness :
  App.resumes (App.removeFile (name resumeB)
                 (App.handleDrop [resumeB] (App.app (App.run ready))))
  = App.resumes (App.app (App.run ready))
  ∧ App.removeFile (name resumeB)
      (App.handleFileChange [resumeB] (App.app (App.run ready)))
    = App.app (App.run ready).
Proof.
  apply removeFile_undoes_add.
  apply (bool_decide_unpack _); vm_compute; exact I.
Defined.

(** * More about a submission *)

Lemma form_getAll_app key (fd fd' : FormData) :
  form_getAll key (fd ++ fd') = form_getAll key fd ++ form_getAll key fd'.
Proof. unfold form_getAll. by rewrite List.filter_app, List.map_app. Qed.

Lemma form_getAll_resume_entries files :
  form_getAll (js "resumes") (resume_entries files) = List.map FormFile files.
Proof.
  induction files as [|f files IH]; [done|].
  unfold form_getAll in *. simpl. by rewrite IH.
Qed.

(** X7: the request carries what was collected: under [resumes] the files of
    the collection, all of them and in its order, and under
    [job_description] the description as typed (validation looks at the
    trimmed text, the request carries the untrimmed one).  Both variants. *)
Theorem handleAnalyze_form_data (s s' : App.State) (p p' : Part000.State)
    (formData : FormData) :
  (App.handleAnalyze s = (s', Some formData) →
     form_getAll (js "resumes") formData = List.map FormFile (App.resumes s)
     ∧ form_get (js "job_description") formData
       = Some (FormText (App.jobDescription s))
     ∧ length formData = S (length (App.resumes s)))
  ∧ (Part000.handleAnalyze p = (p', Some formData) →
     form_getAll (js "resumes") formData
     = List.map FormFile (Part000.resumes p)
     ∧ form_get (js "job_description") formData
       = Some (FormText (Part000.jobDescription p))
     ∧ length formData = S (S (length (Part000.resumes p)))).
Proof.
  split; intros Heq.
  - destruct (handleAnalyze_cases s)
      as [[_ H]|[(_ & _ & H)|(_ & _ & s1 & H & _)]];
      rewrite H in Heq; [discriminate Heq|discriminate Heq|].
    injection Heq as _ <-.
    rewrite form_getAll_app, form_getAll_resume_entries, form_get_app,
      form_get_resume_entries by discriminate.
    rewrite length_app. unfold resume_entries. rewrite length_map.
    split; [by rewrite app_nil_r|]. split; [done|simpl; lia].
  - destruct (Part000_handleAnalyze_cases p)
      as [[_ H]|[(_ & _ & H)|(_ & _ & p1 & H & _)]];
      rewrite H in Heq; [discriminate Heq|discriminate Heq|].
    injection Heq as _ <-.
    rewrite !form_getAll_app, form_getAll_resume_entries, !form_get_app,
      form_get_resume_entries by discriminate.
    rewrite !length_app. unfold resume_entries. rewrite length_map.
    split; [by rewrite !app_nil_r|]. split; [done|simpl; lia].
Qed.

Lemma handleAnalyze_form_data_witness :
  form_getAll (js "resumes")
    (resume_entries [resumeA]
     ++ [(js "job_description", FormText (js "Rust engineer"))])
  = List.map FormFile (App.resumes (App.app (App.run ready)))
  ∧ form_get (js "job_description")
      (resume_entries [resumeA]
       ++ [(js "job_description", FormText (js "Rust engineer"))])
    = Some (FormText (App.jobDescription (App.app (App.run ready))))
  ∧ length (resume_entries [resumeA]
            ++ [(js "job_description", FormText (js "Rust engineer"))])
    = S (length (App.resumes (App.app (App.run ready)))).
Proof.
  eapply (proj1 (handleAnalyze_form_data (App.app (App.run ready)) _
                   Part000.initial Part000.initial _)).
  reflexivity.
Defined.

(** X8: nothing in the life of a submission touches what the user entered:
    [handleAnalyze] and its continuation, for a successful response as for
    a failed one (a rejection or a body that is no array), keep the file
    collection and the description, and in [part_000] the selected
    experience. *)
Theorem submission_keeps_inputs (s : App.State) (p : Part000.State)
    (r : response) :
  App.resumes (fst (App.handleAnalyze s)) = App.resumes s
  ∧ App.jobDescription (fst (App.handleAnalyze s)) = App.jobDescription s
  ∧ App.resumes (App.handleAnalyze_settled r s) = App.resumes s
  ∧ App.jobDescription (App.handleAnalyze_settled r s) = App.jobDescription s
  ∧ Part000.resumes (fst (Part000.handleAnalyze p)) = Part000.resumes p
  ∧ Part000.jobDescription (fst (Part000.handleAnalyze p))
    = Part000.jobDescription p
  ∧ Part000.requiredExperience (fst (Part000.handleAnalyze p))
    = Part000.requiredExperience p
  ∧ Part000.resumes (Part000.handleAnalyze_settled r p) = Part000.resumes p
  ∧ Part000.jobDescription (Part000.handleAnalyze_settled r p)
    = Part000.jobDescription p
  ∧ Part000.requiredExperience (Part000.handleAnalyze_settled r p)
    = Part000.requiredExperience p.
Proof.
  destruct (handleAnalyze_inputs s) as [H1 H2].
  split; [done|]. split; [done|]. split; [by destruct r|].
  split; [by destruct r|].
  assert (Part000.resumes (fst (Part000.handleAnalyze p)) = Part000.resumes p
          ∧ Part000.jobDescription (fst (Part000.handleAnalyze p))
            = Part000.jobDescription p
          ∧ Part000.requiredExperience (fst (Part000.handleAnalyze p))
            = Part000.requiredExperience p) as (H3 & H4 & H5).
  { destruct (Part000_handleAnalyze_cases p)
      as [[_ ->]|[(_ & _ & ->)|(_ & _ & p1 & -> & H)]]; simpl; try done.
    by destruct H as (-> & -> & _ & _ & _ & _ & ->). }
  repeat split; try done; by destruct r.
Qed.

(** * The visibility records of a fresh analysis *)

Lemma forEach_from_values {A} g start (l : list A) acc key b :
  forEach_from (write_row g) start l acc !! key = Some b →
  acc !! key = Some b ∨ b = g key.
Proof.
  revert start acc. induction l as [|x l IH]; intros start acc; simpl;
    [by left|].
  intros [H|H]%IH; [|by right]. unfold write_row in H.
  destruct (decide (key = summary_key start)) as [->|Hs].
  { rewrite lookup_insert_eq in H. right. congruence. }
  rewrite lookup_insert_ne in H by done.
  destruct (decide (key = pain_points_key start)) as [->|Hp].
  { rewrite lookup_insert_eq in H. right. congruence. }
  rewrite lookup_insert_ne in H by done. by left.
Qed.

Lemma handleAnalyze_resolved_visibleContent data s :
  App.visibleContent (App.handleAnalyze_resolved data s)
  = forEach_from (write_row (λ _, false)) 0 data ∅.
Proof. reflexivity. Qed.

(** X9: when a response arrives, the results are the array of the response,
    and every disclosure section is closed, whatever was open before:
    each row has both of its keys, no key is stored for an index that
    has no row, and every stored value is [false]. *)
Theorem handleAnalyze_resolved_collapsed (data : list CandidateResult)
    (s : App.State) (index : nat) (key : js_string) (b : bool) :
  App.results (App.handleAnalyze_resolved data s) = Rows data
  ∧ App.analyzing (App.handleAnalyze_resolved data s) = false
  ∧ App.painPoints_shown (App.handleAnalyze_resolved data s) index = false
  ∧ App.summary_shown (App.handleAnalyze_resolved data s) index = false
  ∧ (is_Some (App.visibleContent (App.handleAnalyze_resolved data s)
              !! pain_points_key index)
     ↔ (index < length data)%nat)
  ∧ (is_Some (App.visibleContent (App.handleAnalyze_resolved data s)
              !! summary_key index)
     ↔ (index < length data)%nat)
  ∧ (App.visibleContent (App.handleAnalyze_resolved data s) !! key = Some b →
     b = false).
Proof.
  split; [done|]. split; [done|].
  unfold App.painPoints_shown, App.summary_shown, flag.
  rewrite handleAnalyze_resolved_visibleContent.
  rewrite forEach_from_pain_points, forEach_from_summary, lookup_empty.
  split; [by case_decide|]. split; [by case_decide|].
  split; [|split].
  - case_decide; split; try done; try lia; by intros [? ?].
  - case_decide; split; try done; try lia; by intros [? ?].
  - intros [H|H]%forEach_from_values; [by rewrite lookup_empty in H|done].
Qed.

(** * More about the life cycle *)

(** X10: the component is analyzing exactly while a request is outstanding, and
    whatever response is delivered, the Analyze button is enabled again
    afterwards.  Both variants. *)
Theorem analyzing_iff_outstanding (evs : list App.event)
    (evs000 : list Part000.event) (r : response) :
  (App.analyzing (App.app (App.run evs)) = true
   ↔ App.outstanding (App.run evs) ≠ [])
  ∧ App.analyzing (App.app (App.step (App.run evs) (App.Settle r))) = false
  ∧ (Part000.analyzing (Part000.app (Part000.run evs000)) = true
     ↔ Part000.outstanding (Part000.run evs000) ≠ [])
  ∧ Part000.analyzing
      (Part000.app (Part000.step (Part000.run evs000) (Part000.Settle r)))
    = false.
Proof.
  split; [|split; [|split]].
  - destruct (run_lifecycle evs) as [[-> ->]|(fd & -> & -> & _)]; by split.
  - simpl. destruct (run_lifecycle evs) as [[-> ?]|(fd & -> & _)]; [done|].
    by destruct r.
  - destruct (Part000_run_lifecycle evs000) as [[-> ->]|(fd & -> & ->)];
      by split.
  - simpl.
    destruct (Part000_run_lifecycle evs000) as [[-> ?]|(fd & -> & _)]; [done|].
    by destruct r.
Qed.

Lemma handleAnalyze_analyzeClicked s :
  App.analyzeClicked (fst (App.handleAnalyze s)) = true.
Proof.
  unfold App.handleAnalyze.
  destruct (length (App.resumes s) =? 0)%nat; simpl; [done|].
  by destruct (truthy (trim (App.jobDescription s))).
Qed.

Lemma step_banner sys e :
  App_lifecycle sys → App_banner sys → App_banner (App.step sys e).
Proof.
  intros Hlife [Hbusy Hfresh]. destruct e; simpl; try done.
  - destruct (App.analyzing (App.app sys)) eqn:Hidle; [done|].
    assert (App.outstanding sys = []) as Hout.
    { destruct Hlife as [[? _]|(fd & _ & ? & _)]; [done|congruence]. }
    pose proof (handleAnalyze_analyzeClicked (App.app sys)) as Hclick.
    destruct (handleAnalyze_cases (App.app sys))
      as [[_ H]|[(_ & _ & H)|(_ & _ & s' & H & Hs')]];
      rewrite H in *; simpl in *; rewrite Hout.
    + by split.
    + by split.
    + split; [|intros Hc; simpl in Hc; congruence]. intros _. split; [done|].
      by destruct Hs' as (_ & _ & _ & _ & _ & ?).
  - destruct (App.outstanding sys) as [|fd rest] eqn:Hout.
    { split; rewrite Hout; [done|]. intros Hc. by apply Hfresh. }
    destruct (Hbusy ltac:(done)) as [Hclick _].
    assert (rest = []) as ->.
    { destruct Hlife as [[? _]|(fd' & ? & _)]; congruence. }
    split; [done|]. simpl. destruct r; simpl; congruence.
  - by case_match.
  - by case_match.
  - destruct (0 <? length (rows (App.results (App.app sys))))%nat eqn:Hrows;
      [|done].
    destruct (sortByScore_frame (App.app sys)) as (_ & _ & _ & He & Hc & _).
    split; simpl; rewrite ?He, Hc; [done|]. intros Hclick.
    destruct (Hfresh Hclick) as (_ & Hres & _). by rewrite Hres in Hrows.
Qed.

Lemma run_banner evs : App_banner (App.run evs).
Proof.
  induction evs as [|e evs IH] using rev_ind.
  - by split.
  - rewrite App_run_snoc. apply step_banner; [apply run_lifecycle|done].
Qed.

Lemma messages_differ : App.no_results_message ≠ App.upload_prompt.
Proof. discriminate. Qed.

(** X11: what the results section shows when there is no table.  While a request
    is outstanding it is the ["No results to display..."] message.  The
    upload prompt is shown only before the first click on Analyze, and then
    no error is shown, no result is held and no request is outstanding. *)
Theorem results_section_messages (evs : list App.event) :
  (App.outstanding (App.run evs) ≠ [] →
     App.results_section (App.app (App.run evs))
     = App.EmptyState App.no_results_message)
  ∧ (App.results_section (App.app (App.run evs))
     = App.EmptyState App.upload_prompt →
     App.analyzeClicked (App.app (App.run evs)) = false
     ∧ App.error (App.app (App.run evs)) = None
     ∧ App.outstanding (App.run evs) = []).
Proof.
  destruct (run_banner evs) as [Hbusy Hfresh]. unfold App.results_section.
  split.
  - intros Hout. destruct (Hbusy Hout) as [-> _].
    destruct (run_lifecycle evs) as [[? _]|(fd & _ & _ & -> & _)]; done.
  - intros H.
    assert (App.EmptyState
              (if App.analyzeClicked (App.app (App.run evs))
               then App.no_results_message else App.upload_prompt)
            = App.EmptyState App.upload_prompt) as Hmessage.
    { destruct (App.results _) as [l|body];
        [by destruct (0 <? length l)%nat|].
      by destruct (App.length_above_zero body) as [[|]|]. }
    destruct (App.analyzeClicked _) eqn:Hclick.
    + apply (f_equal (λ v, match v with
                           | App.EmptyState message => message
                           | _ => []
                           end)) in Hmessage.
      by apply messages_differ in Hmessage.
    + destruct (Hfresh eq_refl) as (? & _ & ?). done.
Qed.

Lemma results_section_messages_witness :
  App.results_section (App.app (App.run submitted))
  = App.EmptyState App.no_results_message.
Proof.
  apply (proj1 (results_section_messages submitted)). discriminate.
Defined.

(** X12: a response delivered to the outstanding request.  A successful one
    leaves the array of the response as the results and no error message.
    A rejection leaves the [AnalysisFailed] message and the empty array.
    A 2xx answer whose body is no array leaves the [AnalysisFailed]
    message, too, and the body in [results], with no visibility records:
    the results section then shows the ["No results to display..."]
    message if the body has no [length] above 0, and cannot be rendered
    otherwise. *)
Theorem delivered_response (evs : list App.event)
    (data : list CandidateResult) (body : non_array) :
  App.outstanding (App.run evs) ≠ [] →
  App.results (App.app (App.step (App.run evs) (App.Settle (Resolved data))))
  = Rows data
  ∧ App.error (App.app (App.step (App.run evs) (App.Settle (Resolved data))))
    = None
  ∧ App.results (App.app (App.step (App.run evs) (App.Settle Rejected)))
    = Rows []
  ∧ App.error (App.app (App.step (App.run evs) (App.Settle Rejected)))
    = Some AnalysisFailed
  ∧ App.results
      (App.app (App.step (App.run evs) (App.Settle (Malformed body))))
    = Body body
  ∧ App.error
      (App.app (App.step (App.run evs) (App.Settle (Malformed body))))
    = Some AnalysisFailed
  ∧ App.visibleContent
      (App.app (App.step (App.run evs) (App.Settle (Malformed body))))
    = ∅
  ∧ App.results_section
      (App.app (App.step (App.run evs) (App.Settle (Malformed body))))
    = match App.length_above_zero body with
      | Some false => App.EmptyState App.no_results_message
      | _ => App.RenderThrows
      end.
Proof.
  intros Hout. destruct (run_banner evs) as [Hbusy _].
  destruct (Hbusy Hout) as [Hclick Herr].
  destruct (run_lifecycle evs) as [[? _]|(fd & Hfd & _ & Hres & Hvis)];
    [done|].
  simpl. rewrite Hfd. simpl. rewrite Herr, Hres, Hvis.
  repeat (split; [done|]).
  unfold App.results_section. simpl. rewrite Hclick.
  by destruct (App.length_above_zero body) as [[|]|].
Qed.

Lemma delivered_response_witness :
  App.results (App.app (App.step (App.run submitted)
                          (App.Settle (Resolved [candidateB]))))
  = Rows [candidateB]
  ∧ App.error (App.app (App.step (App.run submitted)
                          (App.Settle (Resolved [candidateB]))))
    = None
  ∧ App.results (App.app (App.step (App.run submitted)
                            (App.Settle Rejected)))
    = Rows []
  ∧ App.error (App.app (App.step (App.run submitted) (App.Settle Rejected)))
    = Some AnalysisFailed
  ∧ App.results (App.app (App.step (App.run submitted)
                            (App.Settle (Malformed gateway_page))))
    = Body gateway_page
  ∧ App.error (App.app (App.step (App.run submitted)
                          (App.Settle (Malformed gateway_page))))
    = Some AnalysisFailed
  ∧ App.visibleContent (App.app (App.step (App.run submitted)
                                   (App.Settle (Malformed gateway_page))))
    = ∅
  ∧ App.results_section (App.app (App.step (App.run submitted)
                                    (App.Settle (Malformed gateway_page))))
    = match App.length_above_zero gateway_page with
      | Some false => App.EmptyState App.no_results_message
      | _ => App.RenderThrows
      end.
Proof. apply delivered_response. discriminate. Defined.

(** * More about the disclosure sections *)

(** X13: the keys of different rows and sections never coincide, so a View
    button acts on its own section of its own row only: it flips what that
    section shows and leaves every other section of every row as it was. *)
Theorem toggle_row_frame (s : App.State) (i j : nat) :
  App.painPoints_shown (App.toggleContent (pain_points_key i) s) i
  = negb (App.painPoints_shown s i)
  ∧ App.summary_shown (App.toggleContent (summary_key i) s) i
    = negb (App.summary_shown s i)
  ∧ App.summary_shown (App.toggleContent (pain_points_key i) s) j
    = App.summary_shown s j
  ∧ App.painPoints_shown (App.toggleContent (summary_key i) s) j
    = App.painPoints_shown s j
  ∧ (i ≠ j →
     App.painPoints_shown (App.toggleContent (pain_points_key i) s) j
     = App.painPoints_shown s j
     ∧ App.summary_shown (App.toggleContent (summary_key i) s) j
       = App.summary_shown s j).
Proof.
  unfold App.painPoints_shown, App.summary_shown, flag. simpl.
  rewrite !lookup_insert_eq. simpl. rewrite !orb_false_r.
  split; [done|]. split; [done|].
  split; [by rewrite lookup_insert_ne by apply pain_points_summary_key|].
  split.
  { rewrite lookup_insert_ne; [done|].
    intros H. by apply eq_sym, pain_points_summary_key in H. }
  intros Hne. split.
  - rewrite lookup_insert_ne; [done|]. by intros H%pain_points_key_inj.
  - rewrite lookup_insert_ne; [done|]. by intros H%summary_key_inj.
Qed.

Lemma toggle_row_frame_witness :
  App.painPoints_shown
    (App.toggleContent (pain_points_key 1) (App.app (App.run opened_A))) 0
  = App.painPoints_shown (App.app (App.run opened_A)) 0
  ∧ App.summary_shown
      (App.toggleContent (summary_key 1) (App.app (App.run opened_A))) 0
    = App.summary_shown (App.app (App.run opened_A)) 0.
Proof.
  apply (proj2 (proj2 (proj2 (proj2
           (toggle_row_frame (App.app (App.run opened_A)) 1 0))))).
  discriminate.
Defined.

Lemma toggleContent_twice_present id s :
  is_Some (App.visibleContent s !! id) →
  App.toggleContent id (App.toggleContent id s) = s.
Proof.
  intros [b Hb]. destruct s as [? ? ? ? ? vc ? ?]. simpl in Hb.
  unfold App.toggleContent, App.setVisibleContent. simpl. f_equal.
  rewrite insert_insert_eq. unfold flag. rewrite lookup_insert_eq, Hb. simpl.
  rewrite !orb_false_r, negb_involutive. by apply insert_id.
Qed.

Lemma Part000_toggleContent_twice_present id p :
  is_Some (Part000.visibleContent p !! id) →
  Part000.toggleContent id (Part000.toggleContent id p) = p.
Proof.
  intros [b Hb]. destruct p as [? ? ? ? ? ? vc ? ?]. simpl in Hb.
  unfold Part000.toggleContent, Part000.setVisibleContent. simpl. f_equal.
  rewrite insert_insert_eq. unfold flag. rewrite lookup_insert_eq, Hb. simpl.
  rewrite negb_involutive. by apply insert_id.
Qed.

(** X14: toggling the same key twice: what the key shows is back where it was;
    if the key was stored, the whole state is; if it was not, it is now
    stored as [false].  Both variants. *)
Theorem toggleContent_twice (id : js_string) (s : App.State)
    (p : Part000.State) :
  flag (App.visibleContent (App.toggleContent id (App.toggleContent id s))) id
  = flag (App.visibleContent s) id
  ∧ (is_Some (App.visibleContent s !! id) →
     App.toggleContent id (App.toggleContent id s) = s)
  ∧ (App.visibleContent s !! id = None →
     App.visibleContent (App.toggleContent id (App.toggleContent id s)) !! id
     = Some false)
  ∧ flag (Part000.visibleContent
            (Part000.toggleContent id (Part000.toggleContent id p))) id
    = flag (Part000.visibleContent p) id
  ∧ (is_Some (Part000.visibleContent p !! id) →
     Part000.toggleContent id (Part000.toggleContent id p) = p)
  ∧ (Part000.visibleContent p !! id = None →
     Part000.visibleContent
       (Part000.toggleContent id (Part000.toggleContent id p)) !! id
     = Some false).
Proof.
  split; [|split; [apply toggleContent_twice_present|split; [|split; [|split]]]].
  - simpl. unfold flag. rewrite lookup_insert_eq. simpl.
    unfold flag. rewrite lookup_insert_eq. simpl.
    by destruct (App.visibleContent s !! id) as [[]|].
  - intros Hnone. simpl. unfold flag.
    by rewrite !lookup_insert_eq, Hnone.
  - simpl. unfold flag. rewrite lookup_insert_eq. simpl.
    unfold flag. rewrite lookup_insert_eq. simpl.
    by destruct (Part000.visibleContent p !! id) as [[]|].
  - apply Part000_toggleContent_twice_present.
  - intros Hnone. simpl. unfold flag.
    by rewrite !lookup_insert_eq, Hnone.
Qed.

Lemma toggleContent_twice_witness :
  App.toggleContent (pain_points_key 0)
    (App.toggleContent (pain_points_key 0) (App.app (App.run analysed)))
  = App.app (App.run analysed).
Proof.
  apply (proj1 (proj2 (toggleContent_twice (pain_points_key 0)
                         (App.app (App.run analysed)) Part000.initial))).
  vm_compute. eauto.
Defined.

(** Every row has its keys, in every state the page can reach. *)
Lemma step_rows_have_keys sys e :
  rows_have_keys (App.app sys) → rows_have_keys (App.app (App.step sys e)).
Proof.
  intros Hrows. destruct e; simpl; try done.
  - destruct (App.analyzing (App.app sys)); [done|].
    destruct (handleAnalyze_cases (App.app sys))
      as [[_ ->]|[(_ & _ & ->)|(_ & _ & s' & -> & H)]]; simpl; try done.
    destruct H as (_ & _ & Hres & _). intros index Hlt.
    rewrite Hres in Hlt. simpl in Hlt. lia.
  - destruct (App.outstanding sys); [done|].
    destruct r as [data|body|]; [| |done].
    + intros index Hlt. simpl in Hlt. simpl App.app.
      rewrite handleAnalyze_resolved_visibleContent,
        forEach_from_pain_points, forEach_from_summary.
      rewrite !decide_True by lia. by split.
    + intros index Hlt. simpl in Hlt. lia.
  - case_match; [|done]. intros i Hi. specialize (Hrows i Hi). simpl in *.
    rewrite !lookup_insert_is_Some'. tauto.
  - case_match; [|done]. intros i Hi. specialize (Hrows i Hi). simpl in *.
    rewrite !lookup_insert_is_Some'. tauto.
  - case_match; [|done]. simpl App.app.
    destruct (App.results (App.app sys)) as [prev|body] eqn:Hcell;
      [|by rewrite (sortByScore_Body _ body)].
    intros i Hi. rewrite (sortByScore_Rows _ prev Hcell) in *.
    cbn [App.results App.visibleContent rows] in *.
    rewrite forEach_from_pain_points, forEach_from_summary.
    rewrite sort_length in *. rewrite !decide_True by lia.
    by split.
Qed.

Lemma run_rows_have_keys evs : rows_have_keys (App.app (App.run evs)).
Proof.
  induction evs as [|e evs IH] using rev_ind.
  - intros index Hlt. simpl in Hlt. lia.
  - rewrite App_run_snoc. by apply step_rows_have_keys.
Qed.

(** X15: on the page, clicking the same View button twice brings back the very
    state the page was in. *)
Theorem view_twice_restores (evs : list App.event) (index : nat) :
  App.step (App.step (App.run evs) (App.ClickViewPainPoints index))
    (App.ClickViewPainPoints index) = App.run evs
  ∧ App.step (App.step (App.run evs) (App.ClickViewSummary index))
      (App.ClickViewSummary index) = App.run evs.
Proof.
  pose proof (run_rows_have_keys evs index) as Hrows.
  destruct (App.run evs) as [s out]. simpl in *.
  destruct (index <? length (rows (App.results s)))%nat eqn:Hlt; simpl;
    rewrite Hlt; [|done].
  apply Nat.ltb_lt in Hlt. destruct (Hrows Hlt) as [Hp Hs].
  by rewrite !toggleContent_twice_present.
Qed.

(** * More about sorting *)

Lemma sortByScore_shown_by_position_witness :
  App.painPoints_shown (App.sortByScore (App.app (App.run opened_A))) 0
  = App.painPoints_shown (App.app (App.run opened_A)) 0
  ∧ App.summary_shown (App.sortByScore (App.app (App.run opened_A))) 0
    = App.summary_shown (App.app (App.run opened_A)) 0.
Proof. apply sortByScore_shown_by_position. vm_compute. lia. Defined.

Lemma sort_insert_Permutation {A} (cmp : A → A → Z) x l :
  sort_insert cmp x l ≡ₚ x :: l.
Proof.
  induction l as [|y l IH]; simpl; [done|].
  destruct (cmp x y <=? 0); [done|]. rewrite IH. apply Permutation_swap.
Qed.

Lemma sort_Permutation {A} (cmp : A → A → Z) l : sort cmp l ≡ₚ l.
Proof.
  induction l as [|x l IH]; simpl; [done|].
  by rewrite sort_insert_Permutation, IH.
Qed.

(** X17: [sortByScore] only reorders: the sorted results are a permutation of
    the previous ones (no candidate is lost or doubled), and the file
    collection, the description, the error message and the analyzing flag
    are untouched. *)
Theorem sortByScore_permutation (s : App.State) :
  rows (App.results (App.sortByScore s)) ≡ₚ rows (App.results s)
  ∧ length (rows (App.results (App.sortByScore s)))
    = length (rows (App.results s))
  ∧ App.resumes (App.sortByScore s) = App.resumes s
  ∧ App.jobDescription (App.sortByScore s) = App.jobDescription s
  ∧ App.error (App.sortByScore s) = App.error s
  ∧ App.analyzing (App.sortByScore s) = App.analyzing s.
Proof.
  assert (rows (App.results (App.sortByScore s)) ≡ₚ rows (App.results s))
    as Hperm.
  { destruct (App.results s) as [prev|body] eqn:Hcell.
    - rewrite (sortByScore_Rows s prev Hcell). apply sort_Permutation.
    - by rewrite (sortByScore_Body s body Hcell), Hcell. }
  split; [done|]. split; [by apply Permutation_length|].
  destruct (sortByScore_frame s) as (? & ? & ? & ? & _). done.
Qed.

(** The object a visibility loop builds depends on the values given to the
    keys of the rows only. *)
Lemma forEach_from_ext {A} g g' start (l : list A) acc :
  (∀ i, (start ≤ i < start + length l)%nat →
        g (pain_points_key i) = g' (pain_points_key i)
        ∧ g (summary_key i) = g' (summary_key i)) →
  forEach_from (write_row g) start l acc
  = forEach_from (write_row g') start l acc.
Proof.
  revert start acc. induction l as [|x l IH]; intros start acc Hg; [done|].
  simpl. unfold write_row at 2 4.
  destruct (Hg start) as [-> ->]; [simpl; lia|].
  apply IH. intros i Hi. apply Hg. simpl. lia.
Qed.

Lemma State_ext (s1 s2 : App.State) :
  App.resumes s1 = App.resumes s2 →
  App.jobDescription s1 = App.jobDescription s2 →
  App.results s1 = App.results s2 →
  App.analyzing s1 = App.analyzing s2 →
  App.error s1 = App.error s2 →
  App.visibleContent s1 = App.visibleContent s2 →
  App.analyzeClicked s1 = App.analyzeClicked s2 →
  App.isDragOver s1 = App.isDragOver s2 →
  s1 = s2.
Proof. destruct s1, s2; simpl; congruence. Qed.

(** X18: sorting a second time changes nothing at all: not the order, and not
    the visibility records either. *)
Theorem sortByScore_idempotent (s : App.State) :
  App.sortByScore (App.sortByScore s) = App.sortByScore s.
Proof.
  destruct (App.results s) as [prev|body] eqn:Hcell;
    [|by rewrite !(sortByScore_Body s body Hcell)].
  rewrite (sortByScore_Rows s prev Hcell).
  match goal with
  | |- App.sortByScore ?t = _ =>
      rewrite (sortByScore_Rows t (sort (descending score) prev))
        by reflexivity
  end.
  apply State_ext; try done; cbn [App.results App.visibleContent].
  - f_equal. apply (sort_idempotent score).
  - rewrite sort_idempotent.
    apply forEach_from_ext. intros i Hi. split; unfold flag at 1.
    + rewrite forEach_from_pain_points, decide_True by lia. simpl.
      by rewrite orb_false_r.
    + rewrite forEach_from_summary, decide_True by lia. simpl.
      by rewrite orb_false_r.
Qed.

(** * The score badge *)

Lemma badges_differ : green ≠ yellow ∧ green ≠ red ∧ yellow ≠ red.
Proof. repeat split; discriminate. Qed.

(** X19: the badge never gets worse as the score grows: above a green score
    everything is green, below a red score everything is red.  Both
    variants. *)
Theorem getScoreColor_monotone (a b : Z) :
  a ≤ b →
  (App.getScoreColor a = green → App.getScoreColor b = green)
  ∧ (App.getScoreColor b = red → App.getScoreColor a = red)
  ∧ (Part000.getScoreColor a = green → Part000.getScoreColor b = green)
  ∧ (Part000.getScoreColor b = red → Part000.getScoreColor a = red).
Proof.
  intros Hle. destruct badges_differ as (Hgy & Hgr & Hyr).
  unfold App.getScoreColor, Part000.getScoreColor.
  fold green yellow red.
  repeat split; intros H;
    repeat (lazymatch goal with
            | |- context [?x <? ?y] => destruct (Z.ltb_spec x y)
            | |- context [?x <=? ?y] => destruct (Z.leb_spec x y)
            | H : context [?x <? ?y] |- _ => destruct (Z.ltb_spec x y)
            | H : context [?x <=? ?y] |- _ => destruct (Z.leb_spec x y)
            end);
    try done; try lia; try congruence.
Qed.

Lemma getScoreColor_monotone_witness :
  (App.getScoreColor 71 = green → App.getScoreColor 90 = green)
  ∧ (App.getScoreColor 90 = red → App.getScoreColor 71 = red)
  ∧ (Part000.getScoreColor 71 = green → Part000.getScoreColor 90 = green)
  ∧ (Part000.getScoreColor 90 = red → Part000.getScoreColor 71 = red).
Proof. apply getScoreColor_monotone. lia. Defined.

(** X20: the two variants colour the same score differently only in one
    direction: [App.jsx] is never the stricter one.  What [part_000] shows
    green is green in [App.jsx], what [App.jsx] shows red is red in
    [part_000]; the scores from 71 to 79 are green in one and yellow
    in the other, those from 50 to 59 yellow in one and red in the
    other; and on every other score the two variants show the same badge:
    red up to 49, yellow from 60 to 70, green from 80 on. *)
Theorem getScoreColor_variants (x : Z) :
  (Part000.getScoreColor x = green → App.getScoreColor x = green)
  ∧ (App.getScoreColor x = red → Part000.getScoreColor x = red)
  ∧ (App.getScoreColor x = green ∧ Part000.getScoreColor x = yellow
     ↔ 71 ≤ x ≤ 79)
  ∧ (App.getScoreColor x = yellow ∧ Part000.getScoreColor x = red
     ↔ 50 ≤ x ≤ 59)
  ∧ (App.getScoreColor x ≠ Part000.getScoreColor x
     ↔ 71 ≤ x ≤ 79 ∨ 50 ≤ x ≤ 59)
  ∧ (x ≤ 49 → App.getScoreColor x = red ∧ Part000.getScoreColor x = red)
  ∧ (60 ≤ x ≤ 70 →
     App.getScoreColor x = yellow ∧ Part000.getScoreColor x = yellow)
  ∧ (80 ≤ x →
     App.getScoreColor x = green ∧ Part000.getScoreColor x = green).
Proof.
  destruct badges_differ as (Hgy & Hgr & Hyr).
  unfold App.getScoreColor, Part000.getScoreColor.
  fold green yellow red.
  destruct (Z.ltb_spec 70 x), (Z.leb_spec 50 x), (Z.leb_spec 80 x),
    (Z.leb_spec 60 x); try lia;
    repeat split; intros; destruct_and?;
    try lia; try congruence; try done.
Qed.

(** * The download link *)

Lemma hex_digit_unreserved n : (n < 16)%N → isUnreserved (hex_digit n) = true.
Proof.
  intros Hn. unfold hex_digit, isUnreserved.
  destruct (N.ltb_spec n 10).
  - replace ((0x30 <=? 0x30 + n) && (0x30 + n <=? 0x39))%N with true;
      [by rewrite !orb_true_r|].
    symmetry. apply andb_true_iff. split; apply N.leb_le; lia.
  - replace ((0x41 <=? 0x37 + n) && (0x37 + n <=? 0x5A))%N with true; [done|].
    symmetry. apply andb_true_iff. split; apply N.leb_le; lia.
Qed.

Lemma percent_safe octet :
  (octet < 256)%N → forallb uri_safe (percent octet) = true.
Proof.
  intros Hlt. unfold percent. cbn [forallb].
  assert (octet / 16 < 16)%N by (apply N.Div0.div_lt_upper_bound; lia).
  assert (octet mod 16 < 16)%N by (apply N.mod_lt; lia).
  unfold uri_safe at 2 3. rewrite !hex_digit_unreserved by done. done.
Qed.

Lemma utf8_octets V : (V < 0x110000)%N → Forall (λ o, (o < 256)%N) (utf8 V).
Proof.
  intros HV. unfold utf8.
  assert (∀ a, a mod 0x40 < 0x40)%N as Hmod by (intros; apply N.mod_lt; lia).
  destruct (N.ltb_spec V 0x80); [repeat constructor; lia|].
  destruct (N.ltb_spec V 0x800).
  { assert (V / 0x40 < 0x20)%N by (apply N.Div0.div_lt_upper_bound; lia).
    pose proof (Hmod V). repeat constructor; lia. }
  destruct (N.ltb_spec V 0x10000).
  { assert (V / 0x1000 < 0x10)%N by (apply N.Div0.div_lt_upper_bound; lia).
    pose proof (Hmod V). pose proof (Hmod (V / 0x40)%N).
    repeat constructor; lia. }
  assert (V / 0x40000 < 0x8)%N by (apply N.Div0.div_lt_upper_bound; lia).
  pose proof (Hmod V). pose proof (Hmod (V / 0x40)%N).
  pose proof (Hmod (V / 0x1000)%N). repeat constructor; lia.
Qed.

Lemma escape_safe V : (V < 0x110000)%N → forallb uri_safe (escape V) = true.
Proof.
  intros HV%utf8_octets. unfold escape.
  induction HV as [|o os Ho _ IH]; [done|]. cbn [List.map concat].
  by rewrite forallb_app, percent_safe, IH.
Qed.

Lemma pair_code_point_bound c d :
  isLeadSurrogate c = true → isTrailSurrogate d = true →
  (pair_code_point c d < 0x110000)%N.
Proof.
  unfold isLeadSurrogate, isTrailSurrogate, pair_code_point.
  rewrite !andb_true_iff, !N.leb_le. lia.
Qed.

Lemma encodeURIComponent_cons c s :
  encodeURIComponent (c :: s)
  = if isUnreserved c then (c ::.) <$> encodeURIComponent s
    else if isTrailSurrogate c then None
    else if negb (isLeadSurrogate c)
    then (escape c ++.) <$> encodeURIComponent s
    else
      match s with
      | [] => None
      | d :: s'' =>
          if isTrailSurrogate d
          then (escape (pair_code_point c d) ++.) <$> encodeURIComponent s''
          else None
      end.
Proof. by destruct s. Qed.

Lemma encodeURIComponent_safe s out :
  Forall is_code_unit s → encodeURIComponent s = Some out →
  forallb uri_safe out = true.
Proof.
  enough (∀ s,
    (∀ out, Forall is_code_unit s → encodeURIComponent s = Some out →
            forallb uri_safe out = true)
    ∧ (∀ c out, Forall is_code_unit (c :: s) →
                encodeURIComponent (c :: s) = Some out →
                forallb uri_safe out = true)) as H by (apply H).
  clear. induction s as [|d s [IH0 IH1]].
  - split; [by intros out _ [= <-]|]. intros c out [Hc _]%Forall_cons.
    rewrite encodeURIComponent_cons. destruct (isUnreserved c) eqn:Hu.
    { intros [= <-]. simpl. unfold uri_safe. by rewrite Hu. }
    destruct (isTrailSurrogate c); [done|].
    destruct (isLeadSurrogate c); [done|]. simpl. intros [= <-].
    rewrite app_nil_r. apply escape_safe. unfold is_code_unit in Hc. lia.
  - split; [apply IH1|]. intros c out [Hc Hs]%Forall_cons.
    rewrite encodeURIComponent_cons.
    destruct (isUnreserved c) eqn:Hu.
    { destruct (encodeURIComponent (d :: s)) as [rest|] eqn:Hrest; simpl;
        [|done].
      intros [= <-]. simpl. unfold uri_safe at 1. rewrite Hu. simpl.
      by apply (IH1 d). }
    destruct (isTrailSurrogate c); [done|].
    destruct (isLeadSurrogate c) eqn:Hlead; cbn [negb].
    + destruct (isTrailSurrogate d) eqn:Htrail; [|done].
      destruct (encodeURIComponent s) as [rest|] eqn:Hrest; simpl; [|done].
      intros [= <-]. rewrite forallb_app.
      rewrite escape_safe by by apply pair_code_point_bound.
      apply Forall_cons in Hs as [_ Hs]. by apply IH0.
    + destruct (encodeURIComponent (d :: s)) as [rest|] eqn:Hrest; simpl;
        [|done].
      intros [= <-]. rewrite forallb_app.
      rewrite escape_safe by (unfold is_code_unit in Hc; lia).
      by apply (IH1 d).
Qed.

(** X21: the link of a row is [/uploads/] followed by one path segment: when the
    link is built at all, what follows the prefix consists of unreserved
    characters and percent signs only, so it holds no slash, no question
    mark and no hash, whatever the service put into [resume_name]. *)
Theorem download_href_one_segment (result : CandidateResult)
    (href : js_string) :
  Forall is_code_unit (resume_name result) →
  App.download_href result = Some href →
  ∃ segment, href = js "/uploads/" ++ segment
    ∧ forallb uri_safe segment = true
    ∧ (0x2F%N ∉ segment) ∧ (0x3F%N ∉ segment) ∧ (0x23%N ∉ segment).
Proof.
  intros Hunits. unfold App.download_href.
  destruct (encodeURIComponent (resume_name result)) as [segment|] eqn:Henc;
    [|done].
  intros [= <-]. exists segment. split; [done|].
  pose proof (encodeURIComponent_safe _ _ Hunits Henc) as Hsafe.
  split; [done|]. rewrite forallb_forall in Hsafe.
  repeat split; intros Hin%list_elem_of_In%Hsafe; discriminate Hin.
Qed.

Lemma download_href_one_segment_witness :
  ∃ segment,
    js "/uploads/my%20resume%2F1.pdf" = js "/uploads/" ++ segment
    ∧ forallb uri_safe segment = true
    ∧ (0x2F%N ∉ segment) ∧ (0x3F%N ∉ segment) ∧ (0x23%N ∉ segment).
Proof.
  apply (download_href_one_segment
           (mkResult (js "A") 65 no_pain_points [] [] (js "my resume/1.pdf"))).
  - apply Forall_forall. intros c Hc. apply (bool_decide_unpack _).
    revert c Hc. apply Forall_forall. apply (bool_decide_unpack _).
    vm_compute. exact I.
  - vm_compute. reflexivity.
Defined.

(** X22: a name of letters, digits and [- _ . ! ~ * ' ( )] is linked as it is. *)
Theorem download_href_plain (result : CandidateResult) :
  forallb isUnreserved (resume_name result) = true →
  App.download_href result = Some (js "/uploads/" ++ resume_name result).
Proof.
  intros Hplain. unfold App.download_href.
  enough (encodeURIComponent (resume_name result) = Some (resume_name result))
    as -> by done.
  induction (resume_name result) as [|c s IH]; [done|].
  simpl in Hplain. apply andb_true_iff in Hplain as [Hc Hs].
  rewrite encodeURIComponent_cons. by rewrite Hc, IH.
Qed.

Lemma download_href_plain_witness :
  App.download_href candidateA = Some (js "/uploads/" ++ resume_name candidateA).
Proof. apply download_href_plain. vm_compute. reflexivity. Defined.

Lemma encodeURIComponent_lone_lead s c :
  isLeadSurrogate c = true → encodeURIComponent (s ++ [c]) = None.
Proof.
  intros Hlead.
  assert (isUnreserved c = false ∧ isTrailSurrogate c = false) as [Hu Ht].
  { revert Hlead. unfold isLeadSurrogate, isTrailSurrogate, isUnreserved.
    rewrite andb_true_iff, !N.leb_le. intros [? ?].
    repeat match goal with
           | |- context [(?a <=? ?b)%N] => destruct (N.leb_spec a b); try lia
           | |- context [(?a =? ?b)%N] => destruct (N.eqb_spec a b); try lia
           end; done. }
  enough (∀ s, encodeURIComponent (s ++ [c]) = None
               ∧ ∀ d, encodeURIComponent (d :: s ++ [c]) = None)
    as H by (apply H).
  clear s. induction s as [|e s [IH0 IH1]].
  - assert (encodeURIComponent [c] = None) as H0.
    { rewrite encodeURIComponent_cons. by rewrite Hu, Ht, Hlead. }
    split; [done|]. intros d. cbn [app].
    rewrite encodeURIComponent_cons, H0, Ht. by repeat case_match.
  - split; [apply IH1|]. intros d.
    change (d :: (e :: s) ++ [c]) with (d :: e :: (s ++ [c])).
    rewrite encodeURIComponent_cons, IH0, (IH1 e). by repeat case_match.
Qed.

(** X23: when the link can be built: always, if the name holds no surrogate
    code unit; never, if the name ends in a lead surrogate, for then
    [encodeURIComponent] throws. *)
Theorem download_href_defined (result : CandidateResult) :
  (Forall (λ c, isLeadSurrogate c = false ∧ isTrailSurrogate c = false)
     (resume_name result) →
   is_Some (App.download_href result))
  ∧ (∀ s c, resume_name result = s ++ [c] → isLeadSurrogate c = true →
     App.download_href result = None).
Proof.
  unfold App.download_href. split.
  - intros Hall. apply fmap_is_Some.
    induction Hall as [|c s [Hl Ht] _ IH]; [done|].
    rewrite encodeURIComponent_cons, Ht, Hl. simpl.
    destruct (isUnreserved c); by apply fmap_is_Some.
  - intros s c -> Hlead. by rewrite encodeURIComponent_lone_lead.
Qed.

Lemma download_href_defined_witness :
  is_Some (App.download_href candidateA)
  ∧ App.download_href
      (mkResult (js "A") 65 no_pain_points [] [] (js "cv" ++ [0xD83D%N]))
    = None.
Proof.
  split.
  - apply (proj1 (download_href_defined candidateA)).
    apply (bool_decide_unpack _). vm_compute. exact I.
  - apply (proj2 (download_href_defined
                    (mkResult (js "A") 65 no_pain_points [] []
                       (js "cv" ++ [0xD83D%N]))) (js "cv") 0xD83D%N);
      reflexivity.
Defined.
